(** * Retrieval core of claude-recall: telemetry collector, search pipeline
    and evidence truncation, embedded from
    scripts/telemetry/collector.py, scripts/search_index.py and
    scripts/redact_secrets.py. *)

From Stdlib Require Import String Ascii List Bool ZArith Arith Lia.
From Stdlib Require Import Reals Lra Sorted.
From Stdlib Require Import DecimalString.
Import ListNotations.

#[local] Set Warnings "-register-all".

Local Open Scope string_scope.
Local Open Scope list_scope.

(** ** JSON values and Python dicts *)

(** A decoded JSON value / Python object as it travels through the
    telemetry layer.  Dicts are association lists in insertion order. *)
Inductive json : Type :=
| JNull
| JBool (b : bool)
| JInt (z : Z)
| JNum (r : R)
| JStr (s : string)
| JList (l : list json)
| JObj (d : list (string * json)).

Definition dict := list (string * json).

(** [d.get(k)] *)
Fixpoint dict_get (k : string) (d : dict) : option json :=
  match d with
  | [] => None
  | (k', v) :: rest => if String.eqb k k' then Some v else dict_get k rest
  end.

Definition dict_has (k : string) (d : dict) : bool :=
  match dict_get k d with Some _ => true | None => false end.

(** [d[k] = v]: in place when the key exists, appended otherwise. *)
Fixpoint dict_set (k : string) (v : json) (d : dict) : dict :=
  match d with
  | [] => [(k, v)]
  | (k', v') :: rest =>
      if String.eqb k k' then (k', v) :: rest else (k', v') :: dict_set k v rest
  end.

(** [del d[k]] *)
Fixpoint dict_del (k : string) (d : dict) : dict :=
  match d with
  | [] => []
  | (k', v') :: rest => if String.eqb k k' then rest else (k', v') :: dict_del k rest
  end.

(** [{**base, **extra}]: every key of [extra], in order, set on [base]. *)
Definition dict_update (base extra : dict) : dict :=
  fold_left (fun acc kv => dict_set (fst kv) (snd kv) acc) extra base.

(** [TelemetryCollector._deep_merge(target, source)]; the source dict is
    wrapped in [JObj] so that recursion goes through the nested values. *)
Fixpoint deep_merge_json (target : dict) (src : json) {struct src} : dict :=
  match src with
  | JObj s =>
      (fix go (target : dict) (s : list (string * json)) : dict :=
         match s with
         | [] => target
         | (k, v) :: rest =>
             let target' :=
               match dict_get k target, v with
               | Some (JObj t), JObj _ => dict_set k (JObj (deep_merge_json t v)) target
               | _, _ => dict_set k v target
               end
             in go target' rest
         end) target s
  | _ => target
  end.

Definition deep_merge (target source : dict) : dict :=
  deep_merge_json target (JObj source).

(** ** Telemetry collector (scripts/telemetry/collector.py) *)

(** The state of the singleton [TelemetryCollector].  [c_redactor] is
    [SecretRedactor.redact] (first component) when redaction is configured
    and the redactor could be built; [c_log] is every record handed to
    [BatchedJSONLWriter.append], oldest first (the writer buffers and the
    flush retries on failure, it never drops a record that was appended);
    [c_next] draws fresh [uuid.uuid4()] values; [c_clock] is the ISO string
    returned by [datetime.now(timezone.utc).isoformat()]. *)
Record collector : Type := mk_collector {
  c_enabled : bool;
  c_redactor : option (string -> string);
  c_current : list (string * dict);
  c_log : list dict;
  c_next : nat;
  c_clock : string
}.

Definition uuid4_of (n : nat) : string :=
  "uuid-" ++ NilEmpty.string_of_uint (Nat.to_uint n).

Fixpoint events_get (k : string) (m : list (string * dict)) : option dict :=
  match m with
  | [] => None
  | (k', e) :: rest => if String.eqb k k' then Some e else events_get k rest
  end.

Fixpoint events_set (k : string) (e : dict) (m : list (string * dict)) :
  list (string * dict) :=
  match m with
  | [] => [(k, e)]
  | (k', e') :: rest =>
      if String.eqb k k' then (k', e) :: rest else (k', e') :: events_set k e rest
  end.

Fixpoint events_del (k : string) (m : list (string * dict)) : list (string * dict) :=
  match m with
  | [] => []
  | (k', e') :: rest => if String.eqb k k' then rest else (k', e') :: events_del k rest
  end.

(** The redaction block shared by [start_event] and [log_event]:
    [query.raw_query] (a dict carrying it) or a bare string [query] is
    passed through the redactor.  Only string values are redacted: every
    caller passes the query as a Python [str]. *)
Definition redact_query (red : option (string -> string)) (ctx : dict) : dict :=
  match red with
  | None => ctx
  | Some r =>
      match dict_get "query" ctx with
      | Some (JObj q) =>
          if dict_has "raw_query" q then
            match dict_get "raw_query" q with
            | Some (JStr s) => dict_set "query" (JObj (dict_set "raw_query" (JStr (r s)) q)) ctx
            | _ => ctx
            end
          else ctx
      | Some (JStr s) => dict_set "query" (JStr (r s)) ctx
      | _ => ctx
      end
  end.

Definition with_current (st : collector) (cur : list (string * dict)) : collector :=
  mk_collector st.(c_enabled) st.(c_redactor) cur st.(c_log) st.(c_next) st.(c_clock).

Definition with_log (st : collector) (cur : list (string * dict)) (lg : list dict) :
  collector :=
  mk_collector st.(c_enabled) st.(c_redactor) cur lg st.(c_next) st.(c_clock).

(** [TelemetryCollector.start_event] *)
Definition start_event (st : collector) (event_type : string) (context : dict) :
  collector * option string :=
  if negb st.(c_enabled) then (st, None)
  else
    let event_id := uuid4_of st.(c_next) in
    let context := redact_query st.(c_redactor) context in
    let event := dict_update [("event_id", JStr event_id);
                              ("timestamp", JStr st.(c_clock));
                              ("event_type", JStr event_type)] context in
    (mk_collector st.(c_enabled) st.(c_redactor)
                  (events_set event_id event st.(c_current)) st.(c_log)
                  (S st.(c_next)) st.(c_clock),
     Some event_id).

(** Python truthiness of an [Optional[str]] event id. *)
Definition id_truthy (event_id : option string) : option string :=
  match event_id with
  | Some s => if String.eqb s "" then None else Some s
  | None => None
  end.

(** [TelemetryCollector.update_event] *)
Definition update_event (st : collector) (event_id : option string) (data : dict) :
  collector :=
  if negb st.(c_enabled) then st
  else match id_truthy event_id with
       | None => st
       | Some eid =>
           match events_get eid st.(c_current) with
           | Some ev => with_current st (events_set eid (deep_merge ev data) st.(c_current))
           | None => st
           end
       end.

(** [TelemetryCollector.end_event]; an empty outcome dict is falsy. *)
Definition end_event (st : collector) (event_id : option string) (outcome : option dict) :
  collector :=
  if negb st.(c_enabled) then st
  else match id_truthy event_id with
       | None => st
       | Some eid =>
           match events_get eid st.(c_current) with
           | None => st
           | Some ev =>
               let ev := match outcome with
                         | Some ((_ :: _) as o) => dict_set "outcome" (JObj o) ev
                         | _ => ev
                         end in
               with_log st (events_del eid st.(c_current)) (st.(c_log) ++ [ev])
           end
       end.

(** [TelemetryCollector.log_event] *)
Definition log_event (st : collector) (event : dict) : collector :=
  if negb st.(c_enabled) then st
  else
    let event := if dict_has "timestamp" event then event
                 else dict_set "timestamp" (JStr st.(c_clock)) event in
    let event := redact_query st.(c_redactor) event in
    with_log st st.(c_current) (st.(c_log) ++ [event]).

(** ** Text helpers (Python [str] operations on ASCII text) *)

Definition ascii_lower (c : ascii) : ascii :=
  let n := nat_of_ascii c in
  if Nat.leb 65 n && Nat.leb n 90 then ascii_of_nat (n + 32) else c.

(** [s.lower()] *)
Fixpoint str_lower (s : string) : string :=
  match s with
  | EmptyString => EmptyString
  | String c r => String (ascii_lower c) (str_lower r)
  end.

(** The regex class [\w]: letters, digits and underscore. *)
Definition is_word_char (c : ascii) : bool :=
  let n := nat_of_ascii c in
  (Nat.leb 48 n && Nat.leb n 57) || (Nat.leb 65 n && Nat.leb n 90) ||
  (Nat.leb 97 n && Nat.leb n 122) || Nat.eqb n 95.

Fixpoint findall_words (s : string) (cur : string) : list string :=
  match s with
  | EmptyString => if String.eqb cur "" then [] else [cur]
  | String c r =>
      if is_word_char c then findall_words r (cur ++ String c EmptyString)
      else if String.eqb cur "" then findall_words r ""
      else cur :: findall_words r ""
  end.

(** [tokenize_query]: [re.findall(r'\w+', query.lower())] *)
Definition tokenize_query (query : string) : list string :=
  findall_words (str_lower query) "".

(** [needle in hay] for strings. *)
Fixpoint str_in (needle hay : string) : bool :=
  String.prefix needle hay ||
  match hay with
  | EmptyString => false
  | String _ r => str_in needle r
  end.

(** ** Corpus index (the JSON document read by [search_sessions]) *)

(** The capture time as [calculate_temporal_score] sees it:
    [session.get("captured") or session.get("timestamp", "")] is empty,
    does not parse, or parses to an instant (in days). *)
Inductive stamp : Type :=
| NoStamp
| BadStamp
| Stamp (days : R).

Record session : Type := mk_session {
  s_id : string;
  s_stamp : stamp;
  s_summary : string;
  s_topics : list string;
  s_files : list string;
  s_beads : list string;
  s_tokens : list string   (* "bm25_tokens" *)
}.

(** [index['sessions']], [index.get('bm25_index')],
    [index.get('embedding_index')]; [None] is a missing key or [null]. *)
Record index : Type := mk_index {
  i_sessions : list session;
  i_bm25 : option dict;
  i_embedding : option dict
}.

(** What [open(index_path)] / [json.load] produce. *)
Inductive index_file : Type :=
| IndexMissing
| IndexMalformed
| IndexOk (i : index).

(** Python truthiness of an optional dict. *)
Definition dict_truthy (d : option dict) : bool :=
  match d with Some (_ :: _) => true | _ => false end.

(** A raised Python exception: [type(e).__name__] and [str(e)]. *)
Record exn : Type := mk_exn { exn_type : string; exn_msg : string }.

Inductive res (A : Type) : Type :=
| Ok (a : A)
| Err (e : exn).
Arguments Ok {A} a.
Arguments Err {A} e.

Definition json_decode_error : exn :=
  mk_exn "JSONDecodeError" "Expecting value: line 1 column 1 (char 0)".

(** A scored session: [{**session, "relevance_score": ..., ...}]. *)
Record result : Type := mk_result {
  r_session : session;
  r_relevance : R;
  r_bm25 : option R;
  r_semantic : option R;
  r_temporal : option R;
  r_mode : string      (* "search_mode" *)
}.

(** The dense side as [semantic_search] sees it: [EMBEDDINGS_AVAILABLE],
    what [EmbeddingCache.load_embeddings] returns, whether
    [EmbeddingCache.load_model] returns a model, and [model.encode]
    ([None] when it raises). *)
Record dense_env : Type := mk_dense_env {
  de_available : bool;
  de_embeddings : option (list (list R));
  de_model_ok : bool;
  de_encode : string -> option (list R)
}.

(** The environment of one [search_sessions] call: the current instant
    (in days), [get_current_session_id()], the dense side,
    [BM25Okapi(corpus)] with the stored parameters followed by
    [get_scores] (from the rank_bm25 library), and the measured timings
    and [get_system_state] dicts that go into the telemetry update. *)
Record search_env : Type := mk_search_env {
  se_now : R;
  se_session_id : string;
  se_dense : dense_env;
  se_bm25 : dict -> list (list string) -> list string -> res (list R);
  se_perf : dict;
  se_system_state : dict
}.

(** ** Scoring (scripts/search_index.py) *)

Local Open Scope R_scope.

(** [calculate_temporal_score(session, decay_days)] : [exp(-age_days/decay)],
    [0.5] for a missing or unparseable capture time. *)
Definition calculate_temporal_score (now : R) (s : session) (decay_days : R) : R :=
  match s.(s_stamp) with
  | NoStamp => 0.5
  | BadStamp => 0.5
  | Stamp t => exp (- (now - t) / decay_days)
  end.

Definition temporal (now : R) (s : session) : R := calculate_temporal_score now s 30.

(** Python's [max] over a non-empty list of floats. *)
Definition list_max (l : list R) : R :=
  match l with
  | [] => 0
  | x :: xs => fold_left Rmax xs x
  end.

Definition list_min (l : list R) : R :=
  match l with
  | [] => 0
  | x :: xs => fold_left Rmin xs x
  end.

Definition list_sum (l : list R) : R := fold_left Rplus l 0.

(** [[f(i, x) for i, x in enumerate(l)]] *)
Fixpoint mapi_from {A B : Type} (f : nat -> A -> B) (i : nat) (l : list A) : list B :=
  match l with
  | [] => []
  | x :: xs => f i x :: mapi_from f (S i) xs
  end.

Definition mapi {A B : Type} (f : nat -> A -> B) (l : list A) : list B := mapi_from f 0 l.

Definition temporal_only (now : R) (sessions : list session) : list result :=
  map (fun s => mk_result s (temporal now s) (Some 0) None (Some (temporal now s)) "bm25")
      sessions.

Definition is_value_or_index_error (e : exn) : bool :=
  String.eqb e.(exn_type) "ValueError" || String.eqb e.(exn_type) "IndexError".

(** [bm25_search(query, index)] *)
Definition bm25_search (env : search_env) (query : string) (idx : index) :
  res (list result) :=
  let sessions := idx.(i_sessions) in
  let query_tokens := tokenize_query query in
  let now := env.(se_now) in
  match idx.(i_bm25), sessions with
  | Some ((_ :: _) as bm25_data), (_ :: _) =>
      match query_tokens with
      | [] => Ok (temporal_only now sessions)
      | _ :: _ =>
          let corpus := map s_tokens sessions in
          if forallb (fun d => match d with [] => true | _ => false end) corpus
          then Ok (temporal_only now sessions)
          else
            match env.(se_bm25) bm25_data corpus query_tokens with
            | Err e =>
                if is_value_or_index_error e then Ok (temporal_only now sessions)
                else Err e
            | Ok bm25_scores =>
                let m := list_max bm25_scores in
                let max_bm25 := if Rlt_dec 0 m then m else 1 in
                let norm i := nth i bm25_scores 0 / max_bm25 in
                Ok (mapi (fun i s =>
                     mk_result s (0.7 * norm i + 0.3 * temporal now s)
                               (Some (norm i)) None (Some (temporal now s)) "bm25")
                   sessions)
            end
      end
  | _, _ =>
      Ok (map (fun s => mk_result s 0 (Some 0) None (Some 0.5) "bm25") sessions)
  end.

Fixpoint dot (u v : list R) : R :=
  match u, v with
  | x :: u', y :: v' => x * y + dot u' v'
  | _, _ => 0
  end.

(** [semantic_search(query, index)]: [None] when embeddings are unavailable,
    the row count differs from [len(index['sessions'])], the model does not
    load, or encoding / the dot product raises. *)
Definition semantic_search (de : dense_env) (query : string) (idx : index) :
  option (list R) :=
  if negb de.(de_available) then None
  else if negb (dict_truthy idx.(i_embedding)) then None
  else match de.(de_embeddings) with
       | None => None
       | Some embeddings =>
           if negb (Nat.eqb (length embeddings) (length idx.(i_sessions))) then None
           else if negb de.(de_model_ok) then None
           else match de.(de_encode) query with
                | None => None
                | Some q =>
                    if negb (forallb (fun row => Nat.eqb (length row) (length q)) embeddings)
                    then None
                    else
                      let qn := map (fun x => x / sqrt (dot q q)) q in
                      let similarities := map (fun row => dot row qn) embeddings in
                      Some (map (fun x => (x + 1) / 2) similarities)
                end
       end.

(** [hybrid_search(query, index)] *)
Definition hybrid_search (env : search_env) (query : string) (idx : index) :
  res (list result) :=
  let sessions := idx.(i_sessions) in
  match bm25_search env query idx with
  | Err e => Err e
  | Ok bm25_results =>
      let semantic_scores :=
        match semantic_search env.(se_dense) query idx with
        | Some ss => if Nat.eqb (length ss) (length sessions) then Some ss else None
        | None => None
        end in
      Ok (mapi (fun i s =>
           let '(bm25_score, temporal_score, relevance_score) :=
             match nth_error bm25_results i with
             | Some r => (match r.(r_bm25) with Some b => b | None => 0 end,
                          match r.(r_temporal) with Some t => t | None => 0.5 end,
                          r.(r_relevance))
             | None => (0, 0.5, 0)
             end in
           match semantic_scores with
           | Some ss =>
               match nth_error ss i with
               | Some semantic_score =>
                   mk_result s (0.5 * bm25_score + 0.5 * semantic_score) (Some bm25_score)
                             (Some semantic_score) (Some temporal_score) "hybrid"
               | None =>
                   mk_result s relevance_score (Some bm25_score) None (Some temporal_score) "bm25"
               end
           | None =>
               mk_result s relevance_score (Some bm25_score) None (Some temporal_score) "bm25"
           end) sessions)
  end.

Fixpoint nodup_str (l : list string) : list string :=
  match l with
  | [] => []
  | x :: xs => if existsb (String.eqb x) xs then nodup_str xs else x :: nodup_str xs
  end.

Definition count_true {A : Type} (p : A -> bool) (l : list A) : nat :=
  length (filter p l).

(** [simple_relevance_score(query, session)] (legacy weighted fields). *)
Definition simple_relevance_score (query : string) (s : session) : R :=
  let query_terms := nodup_str (tokenize_query query) in
  let n := INR (length query_terms) in
  let summary := str_lower s.(s_summary) in
  let part1 :=
    if existsb (fun t => str_in t summary) query_terms
    then INR (count_true (fun t => str_in t summary) query_terms) / n * 3 else 0 in
  let topics := map str_lower s.(s_topics) in
  let in_topics t := existsb (fun topic => str_in t topic) topics in
  let part2 :=
    if existsb in_topics query_terms
    then INR (count_true in_topics query_terms) / n * 2 else 0 in
  let files := map str_lower s.(s_files) in
  let in_files t := existsb (fun f => str_in t f) files in
  let part3 :=
    if existsb in_files query_terms
    then INR (count_true in_files query_terms) / n * 1 else 0 in
  let beads := map str_lower s.(s_beads) in
  let part4 :=
    if existsb (fun t => existsb (fun b => str_in t b) beads) query_terms then 1 else 0 in
  (0 + part1 + part2 + part3 + part4) / 7.

Definition simple_scored (query : string) (sessions : list session) : list result :=
  map (fun s => mk_result s (simple_relevance_score query s) None None None "simple") sessions.

(** ** Ranking: [scored.sort(key=relevance_score, reverse=True)] and
    [scored[:limit]] *)

(** Insertion into a list sorted by decreasing relevance; an element goes
    in front of the first element whose score is not larger, so equal keys
    keep their original order, as Python's stable sort with
    [reverse=True] does. *)
Fixpoint insert_desc (x : result) (l : list result) : list result :=
  match l with
  | [] => [x]
  | y :: ys =>
      if Rlt_dec x.(r_relevance) y.(r_relevance) then y :: insert_desc x ys
      else x :: y :: ys
  end.

Fixpoint sort_desc (l : list result) : list result :=
  match l with
  | [] => []
  | x :: xs => insert_desc x (sort_desc xs)
  end.

(** [l[:k]] for a Python [int] [k] (negative [k] drops from the end). *)
Definition py_slice_to {A : Type} (k : Z) (l : list A) : list A :=
  if (0 <=? k)%Z then firstn (Z.to_nat k) l
  else firstn (length l - Z.to_nat (- k)) l.

(** ** [search_sessions] *)

(** Session and topic filters. *)
Definition apply_filters (sessions : list session) (session_filter : option string)
  (topics_filter : option (list string)) : list session :=
  let s1 := match session_filter with
            | Some f => if String.eqb f "" then sessions
                        else filter (fun s => str_in f s.(s_id)) sessions
            | None => sessions
            end in
  match topics_filter with
  | Some ((_ :: _) as tf) =>
      let topics_lower := map str_lower tf in
      filter (fun s => existsb (fun topic =>
                 existsb (String.eqb topic) (map str_lower s.(s_topics))) topics_lower) s1
  | _ => s1
  end.

Inductive scoring : Type :=
| Scored (mode_resolved : string) (scored : list result)
| SemanticUnavailable
| ScoreRaised (e : exn).

Definition of_res (mode_resolved : string) (r : res (list result)) : scoring :=
  match r with
  | Ok l => Scored mode_resolved l
  | Err e => ScoreRaised e
  end.

Definition semantic_scored (ss : list R) (sessions : list session) : list result :=
  mapi (fun i s => let v := nth i ss 0 in mk_result s v None (Some v) None "semantic")
       sessions.

(** The mode dispatch of [search_sessions] on the filtered index. *)
Definition score_sessions (env : search_env) (query : string) (fidx : index)
  (use_bm25 : bool) (search_mode : string) : scoring :=
  let filtered_sessions := fidx.(i_sessions) in
  if String.eqb search_mode "simple" then
    Scored "simple" (simple_scored query filtered_sessions)
  else if String.eqb search_mode "semantic" then
    match semantic_search env.(se_dense) query fidx with
    | None => SemanticUnavailable
    | Some ss => Scored "semantic" (semantic_scored ss filtered_sessions)
    end
  else if String.eqb search_mode "hybrid" || String.eqb search_mode "auto" then
    let has_embeddings :=
      match fidx.(i_embedding) with Some _ => env.(se_dense).(de_available) | None => false end in
    if has_embeddings || String.eqb search_mode "hybrid" then
      of_res "hybrid" (hybrid_search env query fidx)
    else of_res "bm25" (bm25_search env query fidx)
  else if String.eqb search_mode "bm25" then
    if use_bm25 && dict_truthy fidx.(i_bm25) then of_res "bm25" (bm25_search env query fidx)
    else Scored "simple" (simple_scored query filtered_sessions)
  else
    if use_bm25 && dict_truthy fidx.(i_bm25) then of_res "bm25" (bm25_search env query fidx)
    else Scored "simple" (simple_scored query filtered_sessions).

Definition opt_str (o : option string) : json :=
  match o with Some s => JStr s | None => JNull end.

Definition opt_strs (o : option (list string)) : json :=
  match o with Some l => JList (map JStr l) | None => JNull end.

(** The context dict passed to [start_event]. *)
Definition search_context (env : search_env) (query : string) (scope : string)
  (session_filter : option string) (topics_filter : option (list string))
  (limit : Z) (search_mode : string) : dict :=
  [("trigger_source", JStr "search_index");
   ("trigger_mode", JStr "manual");
   ("session_id", JStr env.(se_session_id));
   ("query", JObj [("raw_query", JStr query);
                   ("query_length", JInt (Z.of_nat (String.length query)))]);
   ("search_config", JObj [("mode", JStr search_mode);
                           ("limit", JInt limit);
                           ("filters", JObj [("scope", JStr scope);
                                             ("session_filter", opt_str session_filter);
                                             ("topics_filter", opt_strs topics_filter)])])].

Definition count_if (p : R -> bool) (l : list R) : json := JInt (Z.of_nat (count_true p l)).

Definition Rge_b (x y : R) : bool := if Rge_dec x y then true else false.
Definition Rlt_b (x y : R) : bool := if Rlt_dec x y then true else false.

(** The dict passed to [update_event] after a successful search. *)
Definition search_update (env : search_env) (mode_resolved : string)
  (results : list result) : dict :=
  let scores := map r_relevance results in
  let '(top_score, avg_score, min_score) :=
    match scores with
    | [] => (0, 0, 0)
    | _ => (list_max scores, list_sum scores / INR (length scores), list_min scores)
    end in
  [("search_config", JObj [("mode_resolved", JStr mode_resolved)]);
   ("results", JObj [("count", JInt (Z.of_nat (length results)));
                     ("retrieved_sessions", JList (map (fun r => JStr r.(r_session).(s_id)) results));
                     ("scores", JObj [("top_score", JNum top_score);
                                      ("avg_score", JNum avg_score);
                                      ("min_score", JNum min_score);
                                      ("score_distribution", JObj
                                         [("high_0.7+", count_if (fun s => Rge_b s 0.7) scores);
                                          ("medium_0.4-0.7",
                                            count_if (fun s => Rge_b s 0.4 && Rlt_b s 0.7) scores);
                                          ("low_<0.4", count_if (fun s => Rlt_b s 0.4) scores)])])]);
   ("performance", JObj env.(se_perf));
   ("system_state", JObj env.(se_system_state))].

(** The body of the [try] block of [search_sessions]. *)
Definition search_body (st : collector) (event_id : option string) (env : search_env)
  (query : string) (idxf : index_file) (session_filter : option string)
  (topics_filter : option (list string)) (limit : Z) (use_bm25 : bool)
  (search_mode : string) : collector * res (list result) :=
  match idxf with
  | IndexMissing =>
      (end_event st event_id (Some [("success", JBool false); ("error", JStr "index_not_found")]),
       Ok [])
  | IndexMalformed => (st, Err json_decode_error)
  | IndexOk idx =>
      let filtered_sessions := apply_filters idx.(i_sessions) session_filter topics_filter in
      let filtered_index := mk_index filtered_sessions idx.(i_bm25) idx.(i_embedding) in
      match score_sessions env query filtered_index use_bm25 search_mode with
      | SemanticUnavailable =>
          (end_event st event_id
             (Some [("success", JBool false); ("error", JStr "semantic_search_unavailable");
                    ("error_type", JStr "DependencyError")]),
           Ok [])
      | ScoreRaised e => (st, Err e)
      | Scored mode_resolved scored =>
          let results := py_slice_to limit (sort_desc scored) in
          let st := update_event st event_id (search_update env mode_resolved results) in
          let st := end_event st event_id (Some [("success", JBool true)]) in
          (st, Ok results)
      end
  end.

(** [search_sessions(query, index_path, scope, session_filter, topics_filter,
    limit, use_bm25, search_mode)] with the collector threaded through. *)
Definition search_sessions (st : collector) (env : search_env) (query : string)
  (idxf : index_file) (scope : string) (session_filter : option string)
  (topics_filter : option (list string)) (limit : Z) (use_bm25 : bool)
  (search_mode : string) : collector * res (list result) :=
  let '(st1, event_id) :=
    start_event st "recall_triggered"
      (search_context env query scope session_filter topics_filter limit search_mode) in
  match search_body st1 event_id env query idxf session_filter topics_filter limit
          use_bm25 search_mode with
  | (st2, Err e) =>
      let st3 := update_event st2 event_id [("error", JStr e.(exn_msg));
                                            ("error_type", JStr e.(exn_type))] in
      (end_event st3 event_id (Some [("success", JBool false)]), Err e)
  | r => r
  end.

(** The keyword defaults of [search_sessions]. *)
Definition search_sessions_default (st : collector) (env : search_env) (query : string)
  (idxf : index_file) : collector * res (list result) :=
  search_sessions st env query idxf "all" None None 5 true "auto".

Local Close Scope R_scope.

(** ** Evidence truncation (scripts/redact_secrets.py) *)

Definition stars : list ascii := ["*"%char; "*"%char; "*"%char].

(** [s[-k:]] for [k >= 0]: [s[-0:]] is the whole string. *)
Definition py_suffix (k : nat) (s : list ascii) : list ascii :=
  if Nat.eqb k 0 then s else skipn (length s - k) s.

(** [_truncate_evidence(match_text, max_len)] on the characters of the
    matched secret. *)
Definition truncate_evidence (match_text : list ascii) (max_len : nat) : list ascii :=
  let n := length match_text in
  if Nat.leb n max_len then
    if Nat.leb n 6 then firstn 2 match_text ++ stars
    else
      let prefix_len := Nat.min 4 (n / 3) in
      let suffix_len := Nat.min 3 (n / 4) in
      firstn prefix_len match_text ++ stars ++ py_suffix suffix_len match_text
  else
    let prefix_len := Nat.min 6 (max_len / 3) in
    let suffix_len := Nat.min 4 (max_len / 4) in
    firstn prefix_len match_text ++ stars ++ py_suffix suffix_len match_text.

(** The evidence stored in a [Finding]: [redact] calls the function with
    its default [max_len = 24]. *)
Definition finding_evidence (match_text : list ascii) : list ascii :=
  truncate_evidence match_text 24.


(** ** Views used in the statements *)

(** The value [search_sessions] returns, without the telemetry side
    (proved equal to [snd (search_sessions ...)] below). *)
Definition search_outcome (env : search_env) (query : string) (idxf : index_file)
  (session_filter : option string) (topics_filter : option (list string)) (limit : Z)
  (use_bm25 : bool) (search_mode : string) : res (list result) :=
  match idxf with
  | IndexMissing => Ok []
  | IndexMalformed => Err json_decode_error
  | IndexOk idx =>
      match score_sessions env query
              (mk_index (apply_filters idx.(i_sessions) session_filter topics_filter)
                        idx.(i_bm25) idx.(i_embedding)) use_bm25 search_mode with
      | Scored _ scored => Ok (py_slice_to limit (sort_desc scored))
      | SemanticUnavailable => Ok []
      | ScoreRaised e => Err e
      end
  end.

(** [l1] is obtained from [l2] by deleting elements (order kept). *)
Inductive subseq {A : Type} : list A -> list A -> Prop :=
| subseq_nil l : subseq [] l
| subseq_skip x l1 l2 : subseq l1 l2 -> subseq l1 (x :: l2)
| subseq_keep x l1 l2 : subseq l1 l2 -> subseq (x :: l1) (x :: l2).

Definition score_is (c : R) (r : result) : bool :=
  if Req_EM_T r.(r_relevance) c then true else false.

(** A row produced by [bm25_search] for session [s]. *)
Definition bm25_row (s : session) (r : result) : Prop :=
  exists b t, r = mk_result s r.(r_relevance) (Some b) None (Some t) "bm25".

(** [rs] is a list of BM25 rows, one per session of [ss], in order. *)
Definition rows_ok (ss : list session) (rs : list result) : Prop :=
  length rs = length ss /\
  forall n s r, nth_error ss n = Some s -> nth_error rs n = Some r -> bm25_row s r.

(** [a] may come before [b] in a list sorted by decreasing relevance. *)
Definition ranked_before (a b : result) : Prop := (r_relevance b <= r_relevance a)%R.

(** The three fields every telemetry record is expected to carry. *)
Definition has_core (ev : dict) : Prop :=
  exists i t ty, dict_get "event_id" ev = Some (JStr i) /\
                 dict_get "timestamp" ev = Some (JStr t) /\
                 dict_get "event_type" ev = Some (JStr ty).

Definition core_free (d : dict) : Prop :=
  dict_get "event_id" d = None /\ dict_get "timestamp" d = None /\
  dict_get "event_type" d = None.

(** An event registered in the in-flight map under a non-empty id. *)
Definition in_flight (st : collector) (eid : string) (P : dict -> Prop) : Prop :=
  st.(c_enabled) = true /\ String.eqb eid "" = false /\
  exists ev, events_get eid st.(c_current) = Some ev /\ P ev.

(** The outcome [search_sessions] records when semantic scoring is
    unavailable. *)
Definition semantic_outcome : dict :=
  [("success", JBool false); ("error", JStr "semantic_search_unavailable");
   ("error_type", JStr "DependencyError")].

(** A score in the closed unit interval. *)
Definition in_unit (x : R) : Prop := (0 <= x <= 1)%R.

(** The capture time of [s] is not after [now]. *)
Definition no_future (now : R) (s : session) : Prop :=
  match s.(s_stamp) with Stamp t => (t <= now)%R | _ => True end.

(** Every stored embedding row has unit norm (the embeddings are written
    pre-normalised). *)
Definition unit_rows (de : dense_env) : Prop :=
  match de.(de_embeddings) with
  | Some emb => Forall (fun row => dot row row = 1%R) emb
  | None => True
  end.

(** The BM25 scorer never returns a negative score. *)
Definition scorer_nonneg (env : search_env) : Prop :=
  forall d corpus q scores, env.(se_bm25) d corpus q = Ok scores -> Forall (Rle 0) scores.

(** The condition [apply_filters] checks on one session. *)
Definition passes_filters (s : session) (session_filter : option string)
  (topics_filter : option (list string)) : Prop :=
  match session_filter with
  | Some f => f = "" \/ str_in f s.(s_id) = true
  | None => True
  end /\
  match topics_filter with
  | Some ((_ :: _) as tf) =>
      exists topic, In topic tf /\ In (str_lower topic) (map str_lower s.(s_topics))
  | _ => True
  end.

(** A BM25 row whose relevance and BM25 part both lie in [0, 1]. *)
Definition row_unit (r : result) : Prop :=
  in_unit r.(r_relevance) /\
  match r.(r_bm25) with Some b => in_unit b | None => True end.

(** An ASCII upper-case letter. *)
Definition is_upper (c : ascii) : Prop := (65 <= nat_of_ascii c <= 90)%nat.

(** ** Batched JSONL writer (scripts/metrics/jsonl_utils.py) *)

(** The state of a [BatchedJSONLWriter]: [bw_file] holds the records
    already written to the JSONL file, oldest first. *)
Record batched_writer : Type := mk_bw {
  bw_file : list dict;
  bw_buffer : list dict;
  bw_last_flush : R;
  bw_batch_size : Z;
  bw_flush_interval : R
}.

(** What one call of [JSONLWriter.append_batch] does: it writes every
    record, or it raises after writing the first [written] records (an
    [open] failure writes none; a [json.dumps] or [write] failure in the
    loop leaves the lines written so far, which the [with] block flushes
    when it closes the file). *)
Inductive batch_outcome : Type :=
| BatchOk
| BatchFail (written : nat).

(** [BatchedJSONLWriter.flush]; [now] is the [time.time()] reading
    after a successful write. *)
Definition bw_flush (w : batched_writer) (out : batch_outcome) (now : R) : batched_writer :=
  match w.(bw_buffer) with
  | [] => w
  | buf =>
      match out with
      | BatchOk => mk_bw (w.(bw_file) ++ buf) [] now w.(bw_batch_size) w.(bw_flush_interval)
      | BatchFail k =>
          mk_bw (w.(bw_file) ++ firstn k buf) buf w.(bw_last_flush)
                w.(bw_batch_size) w.(bw_flush_interval)
      end
  end.

(** [self.flush_interval > 0 and (time.time() - self.last_flush) > self.flush_interval] *)
Definition interval_elapsed (w : batched_writer) (t : R) : bool :=
  if Rlt_dec 0%R w.(bw_flush_interval) then
    if Rlt_dec w.(bw_flush_interval) (t - w.(bw_last_flush))%R then true else false
  else false.

(** [BatchedJSONLWriter.append]; [t_check] is the [time.time()] reading of
    the flush test, [out] and [t_flush] describe the flush it may trigger. *)
Definition bw_append (w : batched_writer) (data : dict) (t_check : R)
  (out : batch_outcome) (t_flush : R) : batched_writer :=
  let w1 := mk_bw w.(bw_file) (w.(bw_buffer) ++ [data]) w.(bw_last_flush)
                  w.(bw_batch_size) w.(bw_flush_interval) in
  let should_flush :=
    orb (Z.leb w.(bw_batch_size) (Z.of_nat (length w1.(bw_buffer))))
        (interval_elapsed w1 t_check) in
  if should_flush then bw_flush w1 out t_flush else w1.

(** The records a flush writes before it fails. *)
Definition written_prefix (buf : list dict) (out : batch_outcome) : list dict :=
  match out with BatchOk => [] | BatchFail k => firstn k buf end.

(** ** Redaction pipeline (scripts/redact_secrets.py) *)

(** The [pattern_info] dict of a detection. *)
Record det_info : Type := mk_det_info {
  di_name : string;
  di_category : string;
  di_confidence : string;
  di_match_text : list ascii
}.

(** A [(start, end, pattern_info)] tuple. *)
Definition detection : Type := (nat * nat * det_info)%type.

Definition det_start (d : detection) : nat := fst (fst d).
Definition det_end (d : detection) : nat := snd (fst d).
Definition det_info_of (d : detection) : det_info := snd d.

(** The [Finding] dataclass. *)
Record finding : Type := mk_finding {
  f_pattern_name : string;
  f_category : string;
  f_confidence : string;
  f_evidence : list ascii;
  f_line_number : option nat;
  f_char_start : nat;
  f_char_end : nat
}.

(** The [RedactionReport] dataclass ([elapsed_ms], a clock reading, is
    left out). *)
Record redaction_report : Type := mk_report {
  rr_total_findings : nat;
  rr_high_confidence : nat;
  rr_medium_confidence : nat;
  rr_findings : list finding;
  rr_whitelisted_skips : nat;
  rr_text_length : nat
}.

(** [regex_ranges]: every index of [range(start, end)] of every regex
    detection. *)
Definition regex_ranges (ds : list detection) : list nat :=
  flat_map (fun d => seq (det_start d) (det_end d - det_start d)) ds.

(** [any(i in regex_ranges for i in range(start, end))] *)
Definition overlaps (ranges : list nat) (d : detection) : bool :=
  existsb (fun i => existsb (Nat.eqb i) ranges) (seq (det_start d) (det_end d - det_start d)).

(** [all_detections] before sorting: the regex detections, then the
    entropy detections that overlap none of them. *)
Definition merge_detections (regex entropy : list detection) : list detection :=
  regex ++ filter (fun d => negb (overlaps (regex_ranges regex) d)) entropy.

(** [list.sort(key=lambda d: d[0], reverse=True)], stable: a detection is
    inserted after every detection with a start at least its own. *)
Fixpoint insert_by_start (d : detection) (l : list detection) : list detection :=
  match l with
  | [] => [d]
  | x :: r => if Nat.ltb (det_start x) (det_start d) then d :: l else x :: insert_by_start d r
  end.

Definition sort_by_start_desc (l : list detection) : list detection :=
  fold_left (fun acc d => insert_by_start d acc) l [].

(** The deduplication loop, with [covered_up_to] as the accumulator. *)
Fixpoint dedup (covered_up_to : nat) (ds : list detection) : list detection :=
  match ds with
  | [] => []
  | d :: r =>
      if Nat.leb (det_end d) covered_up_to then d :: dedup (det_start d) r
      else dedup covered_up_to r
  end.

(** [deduped] for the detections found in [text]. *)
Definition kept_detections (regex entropy : list detection) (text : list ascii) :
  list detection :=
  dedup (length text) (sort_by_start_desc (merge_detections regex entropy)).

(** [_REDACTION_TEMPLATE.format(name=...)] *)
Definition placeholder (name : string) : list ascii :=
  list_ascii_of_string ("[REDACTED:" ++ name ++ "]").

(** [redacted = redacted[:start] + placeholder + redacted[end:]] *)
Definition replace_span (acc : list ascii) (d : detection) : list ascii :=
  firstn (det_start d) acc ++ placeholder (di_name (det_info_of d)) ++ skipn (det_end d) acc.

Definition finding_of (d : detection) : finding :=
  let info := det_info_of d in
  mk_finding info.(di_name) info.(di_category) info.(di_confidence)
             (finding_evidence info.(di_match_text)) None (det_start d) (det_end d).

(** The [high_confidence] / [medium_confidence] counters. *)
Definition tally (hm : nat * nat) (d : detection) : nat * nat :=
  if String.eqb (di_confidence (det_info_of d)) "high" then (S (fst hm), snd hm)
  else (fst hm, S (snd hm)).

(** [line_starts] after [0]: [i + 1] for each ['\n'] at index [i]. *)
Fixpoint newline_starts (i : nat) (l : list ascii) : list nat :=
  match l with
  | [] => []
  | c :: r =>
      if Ascii.eqb c "010"%char then S i :: newline_starts (S i) r
      else newline_starts (S i) r
  end.

Definition line_starts (text : list ascii) : list nat := 0 :: newline_starts 0 text.

(** The body of [for line_num, line_start in enumerate(line_starts, 1)]:
    [None] when the loop runs to its [else]. *)
Fixpoint find_line (char_start line_num : nat) (ls : list nat) : option nat :=
  match ls with
  | [] => None
  | x :: r => if Nat.ltb char_start x then Some (line_num - 1) else find_line char_start (S line_num) r
  end.

Definition line_number (ls : list nat) (char_start : nat) : nat :=
  match find_line char_start 1 ls with Some k => k | None => length ls end.

Definition set_line (f : finding) (n : nat) : finding :=
  mk_finding f.(f_pattern_name) f.(f_category) f.(f_confidence) f.(f_evidence)
             (Some n) f.(f_char_start) f.(f_char_end).

(** [SecretRedactor.redact(text)]; [detect_patterns] and [detect_entropy]
    are the redactor's [_detect_by_patterns] and [_detect_by_entropy]. *)
Definition redact (detect_patterns detect_entropy : list ascii -> list detection)
  (text : list ascii) : list ascii * redaction_report :=
  match text with
  | [] => (text, mk_report 0 0 0 [] 0 0)
  | _ =>
      let deduped := kept_detections (detect_patterns text) (detect_entropy text) text in
      let findings := map finding_of deduped in
      let hm := fold_left tally deduped (0, 0) in
      let redacted := fold_left replace_span deduped text in
      let ls := line_starts text in
      let findings := map (fun f => set_line f (line_number ls f.(f_char_start))) findings in
      (redacted, mk_report (length findings) (fst hm) (snd hm) findings 0 (length text))
  end.

(** Right-to-left splicing, read off the result rather than the loop: the
    redacted prefix before the last span kept, its placeholder, then the
    original text after it. *)
Fixpoint splice_desc (text : list ascii) (ds : list detection) : list ascii :=
  match ds with
  | [] => text
  | d :: r =>
      splice_desc (firstn (det_start d) text) r ++
      placeholder (di_name (det_info_of d)) ++ skipn (det_end d) text
  end.

(** Each span ends at or before [bound], the start of the span before it. *)
Fixpoint chain_below (bound : nat) (ds : list detection) : Prop :=
  match ds with
  | [] => True
  | d :: r => det_end d <= bound /\ chain_below (det_start d) r
  end.

Definition well_formed (d : detection) : Prop := det_start d <= det_end d.

(** ** Entropy detection (scripts/redact_secrets.py) *)

(** The [freq] dict of [_shannon_entropy], in insertion order. *)
Fixpoint freq_add (c : ascii) (fr : list (ascii * nat)) : list (ascii * nat) :=
  match fr with
  | [] => [(c, 1)]
  | (c', n) :: r => if Ascii.eqb c c' then (c', S n) :: r else (c', n) :: freq_add c r
  end.

Definition char_freq (text : list ascii) : list (ascii * nat) :=
  fold_left (fun fr c => freq_add c fr) text [].

(** [_shannon_entropy(text)] over the reals; [math.log2(p)] is
    [ln p / ln 2]. *)
Definition shannon_entropy (text : list ascii) : R :=
  match text with
  | [] => 0%R
  | _ =>
      let length := INR (List.length text) in
      fold_left (fun entropy count =>
                   if Nat.ltb 0 count then
                     let prob := (INR count / length)%R in
                     (entropy - prob * (ln prob / ln 2))%R
                   else entropy)
                (map snd (char_freq text)) 0%R
  end.

(** The character class of [_TOKEN_CANDIDATE_RE]: [[A-Za-z0-9_/+=-]]. *)
Definition is_token_char (c : ascii) : bool :=
  let n := nat_of_ascii c in
  (Nat.leb 65 n && Nat.leb n 90) || (Nat.leb 97 n && Nat.leb n 122) ||
  (Nat.leb 48 n && Nat.leb n 57) ||
  Ascii.eqb c "_"%char || Ascii.eqb c "/"%char || Ascii.eqb c "+"%char ||
  Ascii.eqb c "="%char || Ascii.eqb c "-"%char.

(** [_TOKEN_CANDIDATE_RE.finditer(text)] as [(start, end)] spans.  For a
    greedy repetition of one character class, the matches are the maximal
    runs of class characters of length at least 16: [run_start] is where
    the current run began, [i] the index of the head of [l]. *)
Fixpoint candidate_spans (i run_start : nat) (l : list ascii) : list (nat * nat) :=
  match l with
  | [] => if Nat.leb 16 (i - run_start) then [(run_start, i)] else []
  | c :: r =>
      if is_token_char c then candidate_spans (S i) run_start r
      else (if Nat.leb 16 (i - run_start) then [(run_start, i)] else []) ++
           candidate_spans (S i) (S i) r
  end.

(** The [_entropy_config] dict. *)
Record entropy_config : Type := mk_entropy_config {
  ec_enabled : bool;
  ec_min_length : Z;
  ec_threshold : R
}.

(** [SecretRedactor._detect_by_entropy]; [is_whitelisted] is
    [self._is_whitelisted] and [entropy_name h] the f-string
    [f"High-Entropy String (H={h:.2f})"]. *)
Definition detect_by_entropy (cfg : entropy_config) (is_whitelisted : list ascii -> bool)
  (entropy_name : R -> string) (text : list ascii) : list detection :=
  if negb cfg.(ec_enabled) then []
  else
    flat_map (fun span =>
                let '(s, e) := span in
                let candidate := firstn (e - s) (skipn s text) in
                if Z.ltb (Z.of_nat (length candidate)) cfg.(ec_min_length) then []
                else if is_whitelisted candidate then []
                else
                  let entropy := shannon_entropy candidate in
                  if Rle_dec cfg.(ec_threshold) entropy then
                    [(s, e, mk_det_info (entropy_name entropy) "entropy" "medium" candidate)]
                  else [])
             (candidate_spans 0 0 text).

(** Position [j] of [text] holds a character satisfying [p]. *)
Definition char_at (p : ascii -> bool) (b : bool) (text : list ascii) (j : nat) : Prop :=
  exists c, nth_error text j = Some c /\ p c = b.

(** [text[s:e]] is a maximal run of at least 16 token characters. *)
Definition max_token_run (text : list ascii) (s e : nat) : Prop :=
  s + 16 <= e /\ e <= length text /\
  (forall j, s <= j < e -> char_at is_token_char true text j) /\
  (s = 0 \/ char_at is_token_char false text (s - 1)) /\
  (e = length text \/ char_at is_token_char false text e).

(** ** Concrete configurations used by the witnesses *)

(** No sentence-transformers installed. *)
Definition dense_off : dense_env := mk_dense_env false None false (fun _ => None).

(** A BM25 scorer giving every document the score 0. *)
Definition bm25_zero : dict -> list (list string) -> list string -> res (list R) :=
  fun _ corpus _ => Ok (map (fun _ => 0%R) corpus).

Definition env0 : search_env := mk_search_env 0%R "pid_1" dense_off bm25_zero [] [].

Definition clock0 : string := "2026-02-16T00:00:00+00:00".

Definition collector_on : collector := mk_collector true None [] [] 0 clock0.

Definition collector_off : collector := mk_collector false None [] [] 0 clock0.

(** The raw query of the redaction scenario: a 40-character project key. *)
Definition s5_secret : string := "sk-proj-AAAAAAAAAAAAAAAAAAAAAAAAAAAAAAAAAAAAAAAA".

Definition s5_query : string := "use " ++ s5_secret ++ " now".

Definition empty_index : index := mk_index [] None None.

(** A session whose summary is the word [auth], with no timestamp. *)
Definition sess_auth : session := mk_session "s1" NoStamp "auth" [] [] [] ["auth"].

(** An index holding [sess_auth] and no [bm25_index]. *)
Definition index_no_bm25 : index := mk_index [sess_auth] None None.

(** An index holding [sess_auth] and a non-empty [bm25_index]. *)
Definition index_bm25 : index := mk_index [sess_auth] (Some [("avgdl", JInt 1)]) None.

(** A dense side that is installed, loads its model and stores two rows. *)
Definition dense_two_rows : dense_env :=
  mk_dense_env true (Some [[1%R]; [1%R]]) true (fun _ => Some [1%R]).

Definition env_dense : search_env := mk_search_env 0%R "pid_1" dense_two_rows bm25_zero [] [].

Definition sess_b : session := mk_session "s2" NoStamp "deploy" [] [] [] ["deploy"].

(** Two sessions, a BM25 index and an embedding index with one row each. *)
Definition index_two : index :=
  mk_index [sess_auth; sess_b] (Some [("avgdl", JInt 1)]) (Some [("model", JStr "m")]).

(** Two sessions with the same summary; the older one is stored first. *)
Definition sess_old : session := mk_session "s1" (Stamp 1%R) "auth" [] [] [] ["auth"].

Definition sess_new : session := mk_session "s2" (Stamp 2%R) "auth" [] [] [] ["auth"].

Definition index_tie : index := mk_index [sess_old; sess_new] None None.

(** 101 copies of [sess_auth], no [bm25_index]. *)
Definition index_101 : index := mk_index (repeat sess_auth 101) None None.

(** A session captured 30 days after the current instant of [env0]. *)
Definition sess_future : session := mk_session "s3" (Stamp 30%R) "auth" [] [] [] ["auth"].

Definition index_future : index := mk_index [sess_future] (Some [("avgdl", JInt 1)]) None.

(** Detectors and an entropy configuration for the redaction witnesses. *)
Definition wit_patterns (text : list ascii) : list detection :=
  [(0, 3, mk_det_info "key" "api" "high" (firstn 3 text))].

Definition wit_entropy (text : list ascii) : list detection := [].

Definition wit_entropy_cfg : entropy_config := mk_entropy_config true 16 (-1)%R.

Definition wit_token : list ascii := list_ascii_of_string "aZ09_/+=-aZ09_/+=-".

(** A session whose summary is [deploy]: the query [auth] scores 0 on it. *)
Definition sess_deploy : session := mk_session "s0" NoStamp "deploy" [] [] [] ["deploy"].

(** Three sessions in stored order: a non-match, then the two tied
    [auth] sessions, older capture first. *)
Definition index_rank : index := mk_index [sess_deploy; sess_old; sess_new] None None.

(** A simple-mode row, as the list comprehension of [search_sessions]
    builds it. *)
Definition simple_row (query : string) (s : session) : result :=
  mk_result s (simple_relevance_score query s) None None None "simple".

(** No [bm25_index]; one session with no match and one with a match. *)
Definition index_c3 : index := mk_index [sess_deploy; sess_auth] None None.

(** A dense side with two unit rows and a query encoded as [(3, 4)]. *)
Definition dense_unit : dense_env :=
  mk_dense_env true (Some [[1%R; 0%R]; [0%R; 1%R]]) true (fun _ => Some [3%R; 4%R]).

(** A BM25 scorer giving every document the score 1. *)
Definition bm25_one : dict -> list (list string) -> list string -> res (list R) :=
  fun _ corpus _ => Ok (map (fun _ => 1%R) corpus).

(** Current instant day 10; the dense side above. *)
Definition env_unit : search_env := mk_search_env 10%R "pid_1" dense_unit bm25_one [] [].

(** Two sessions captured on days 10 and 4, with BM25 tokens, a BM25
    index and an embedding index. *)
Definition index_unit : index :=
  mk_index [mk_session "s1" (Stamp 10%R) "auth" [] [] [] ["auth"];
            mk_session "s2" (Stamp 4%R) "auth deploy" [] [] [] ["auth"; "deploy"]]
           (Some [("avgdl", JInt 1)]) (Some [("model", JStr "m")]).

(** The [excerpt_extraction_completed] record that [smart_recall.main]
    hands to [log_event], with [event_id] and [timestamp] set to [None]. *)
Definition excerpt_event : dict :=
  [("event_id", JNull); ("event_type", JStr "excerpt_extraction_completed");
   ("session_id", JStr "pid_1"); ("recall_event_id", JNull);
   ("excerpts", JObj [("enabled", JBool true)]); ("timestamp", JNull)].

(** Two regex detections and two entropy detections, one of which
    overlaps a regex detection. *)
Definition wit_text2 : list ascii := list_ascii_of_string "key=AAAA and BBBB.".

Definition wit_patterns2 (text : list ascii) : list detection :=
  [(4, 8, mk_det_info "key" "api" "high" (firstn 4 (skipn 4 text)));
   (13, 17, mk_det_info "tok" "api" "high" (firstn 4 (skipn 13 text)))].

Definition wit_entropy2 (text : list ascii) : list detection :=
  [(6, 10, mk_det_info "H" "entropy" "medium" (firstn 4 (skipn 6 text)));
   (0, 2, mk_det_info "H" "entropy" "medium" (firstn 2 text))].

(** * Properties *)

(** ** Evidence truncation *)

Lemma py_suffix_length (k : nat) (s : list ascii) :
  (1 <= k <= length s)%nat -> length (py_suffix k s) = k.
Proof.
  intros Hk. unfold py_suffix.
  destruct (Nat.eqb_spec k 0) as [E|E]; [lia|].
  rewrite length_skipn. lia.
Qed.







(** ** Dicts and the collector *)

Lemma dict_get_set_eq (k : string) (v : json) (d : dict) :
  dict_get k (dict_set k v d) = Some v.
Proof.
  induction d as [|[k' v'] rest IH]; simpl.
  - rewrite String.eqb_refl. reflexivity.
  - destruct (String.eqb_spec k k') as [->|Hne]; simpl.
    + rewrite String.eqb_refl. reflexivity.
    + apply String.eqb_neq in Hne. rewrite Hne. exact IH.
Qed.

Lemma dict_get_set_neq (k k' : string) (v : json) (d : dict) :
  k <> k' -> dict_get k (dict_set k' v d) = dict_get k d.
Proof.
  intros Hne. induction d as [|[k0 v0] rest IH]; simpl.
  - apply String.eqb_neq in Hne. rewrite Hne. reflexivity.
  - destruct (String.eqb_spec k' k0) as [->|Hne0]; simpl.
    + apply String.eqb_neq in Hne. rewrite Hne. reflexivity.
    + destruct (String.eqb k k0); [reflexivity|exact IH].
Qed.

Lemma deep_merge_get_other (k : string) (source target : dict) :
  dict_get k source = None -> dict_get k (deep_merge target source) = dict_get k target.
Proof.
  unfold deep_merge. revert target.
  induction source as [|[k' v] rest IH]; intros target Hk; simpl in *; [reflexivity|].
  destruct (String.eqb_spec k k') as [_|Hne]; [discriminate|].
  rewrite IH by exact Hk.
  destruct (dict_get k' target) as [[]|]; try destruct v;
    apply dict_get_set_neq; exact Hne.
Qed.

Lemma events_get_set_eq (k : string) (e : dict) m :
  events_get k (events_set k e m) = Some e.
Proof.
  induction m as [|[k' e'] rest IH]; simpl.
  - rewrite String.eqb_refl. reflexivity.
  - destruct (String.eqb_spec k k') as [->|Hne]; simpl.
    + rewrite String.eqb_refl. reflexivity.
    + apply String.eqb_neq in Hne. rewrite Hne. exact IH.
Qed.

Lemma has_core_merge (ev data : dict) :
  core_free data -> has_core ev -> has_core (deep_merge ev data).
Proof.
  intros [H1 [H2 H3]] [i [t [ty [E1 [E2 E3]]]]]. exists i, t, ty.
  rewrite !deep_merge_get_other by assumption. auto.
Qed.

Lemma has_core_set (ev : dict) (k : string) (v : json) :
  k <> "event_id" -> k <> "timestamp" -> k <> "event_type" ->
  has_core ev -> has_core (dict_set k v ev).
Proof.
  intros N1 N2 N3 [i [t [ty [E1 [E2 E3]]]]]. exists i, t, ty.
  rewrite !dict_get_set_neq by congruence. auto.
Qed.

Lemma update_event_in_flight (st : collector) (eid : string) (data : dict) :
  core_free data -> in_flight st eid has_core ->
  in_flight (update_event st (Some eid) data) eid has_core /\
  c_log (update_event st (Some eid) data) = c_log st.
Proof.
  intros Hd (He & Hid & ev & Hg & Hc).
  unfold update_event, id_truthy. rewrite He, Hid, Hg. simpl.
  split; [|reflexivity].
  split; [exact He|]. split; [exact Hid|].
  exists (deep_merge ev data). split.
  - apply events_get_set_eq.
  - apply has_core_merge; assumption.
Qed.

Lemma end_event_appends (st : collector) (eid : string) (o : option dict) :
  in_flight st eid has_core ->
  exists ev, c_log (end_event st (Some eid) o) = c_log st ++ [ev] /\ has_core ev.
Proof.
  intros (He & Hid & ev & Hg & Hc).
  unfold end_event, id_truthy. rewrite He, Hid, Hg. simpl.
  destruct o as [[|kv o]|].
  - exists ev. auto.
  - eexists. split; [reflexivity|]. apply has_core_set; try discriminate. exact Hc.
  - exists ev. auto.
Qed.

Lemma uuid4_nonempty (n : nat) : String.eqb (uuid4_of n) "" = false.
Proof. reflexivity. Qed.

Lemma redact_query_get_other (k : string) (red : option (string -> string)) (ctx : dict) :
  k <> "query" -> dict_get k (redact_query red ctx) = dict_get k ctx.
Proof.
  intros Hk. unfold redact_query.
  destruct red as [r|]; [|reflexivity].
  destruct (dict_get "query" ctx) as [[]|]; try reflexivity.
  - apply dict_get_set_neq. exact Hk.
  - destruct (dict_has "raw_query" d); [|reflexivity].
    destruct (dict_get "raw_query" d) as [[]|]; try reflexivity.
    apply dict_get_set_neq. exact Hk.
Qed.

Lemma dict_update_get_other (k : string) (base extra : dict) :
  dict_get k extra = None -> dict_get k (dict_update base extra) = dict_get k base.
Proof.
  unfold dict_update. revert base.
  induction extra as [|[k' v] rest IH]; intros base Hk; simpl in *; [reflexivity|].
  destruct (String.eqb_spec k k') as [_|Hne]; [discriminate|].
  rewrite IH by exact Hk. apply dict_get_set_neq. exact Hne.
Qed.

Lemma start_event_in_flight (st : collector) (et : string) (ctx : dict) :
  st.(c_enabled) = true -> core_free ctx ->
  exists st1, start_event st et ctx = (st1, Some (uuid4_of st.(c_next))) /\
    c_log st1 = c_log st /\
    in_flight st1 (uuid4_of st.(c_next))
      (fun ev => has_core ev /\ dict_get "event_type" ev = Some (JStr et)).
Proof.
  intros He [H1 [H2 H3]]. unfold start_event. rewrite He. simpl.
  eexists. split; [reflexivity|]. split; [reflexivity|].
  split; [reflexivity|]. split; [apply uuid4_nonempty|].
  eexists. split; [apply events_get_set_eq|].
  unfold has_core.
  rewrite !dict_update_get_other by (rewrite redact_query_get_other by discriminate; assumption).
  simpl. split; [|reflexivity].
  do 3 eexists. repeat split.
Qed.

Lemma search_update_core_free (env : search_env) (mr : string) (results : list result) :
  core_free (search_update env mr results).
Proof.
  unfold search_update. destruct (map r_relevance results); repeat split.
Qed.

Lemma search_context_core_free env query scope sf tf limit mode :
  core_free (search_context env query scope sf tf limit mode).
Proof. repeat split. Qed.

Lemma in_flight_weaken (st : collector) (eid : string) (P Q : dict -> Prop) :
  (forall ev, P ev -> Q ev) -> in_flight st eid P -> in_flight st eid Q.
Proof.
  intros HPQ (He & Hid & ev & Hg & Hp). split; [exact He|]. split; [exact Hid|].
  exists ev. split; [exact Hg|]. apply HPQ. exact Hp.
Qed.

(** The [try] body either ends the event itself (appending one record) and
    returns, or raises without touching the collector. *)
Lemma search_body_cases (st : collector) (eid : string) env query idxf sf tf limit
  use_bm25 mode :
  in_flight st eid has_core ->
  (exists st2 rs ev, search_body st (Some eid) env query idxf sf tf limit use_bm25 mode
                     = (st2, Ok rs) /\ c_log st2 = c_log st ++ [ev] /\ has_core ev) \/
  (exists e, search_body st (Some eid) env query idxf sf tf limit use_bm25 mode
             = (st, Err e)).
Proof.
  intros Hif. unfold search_body. destruct idxf as [| |idx].
  - left. destruct (end_event_appends st eid
      (Some [("success", JBool false); ("error", JStr "index_not_found")]) Hif) as [ev [Hl Hc]].
    do 3 eexists. split; [reflexivity|]. eauto.
  - right. eexists. reflexivity.
  - destruct (score_sessions env query
               (mk_index (apply_filters (i_sessions idx) sf tf) (i_bm25 idx) (i_embedding idx))
               use_bm25 mode) as [mr scored| |e].
    + left.
      pose proof (update_event_in_flight st eid
                    (search_update env mr (py_slice_to limit (sort_desc scored)))
                    (search_update_core_free _ _ _) Hif) as [Hif2 Hl2].
      destruct (end_event_appends _ eid (Some [("success", JBool true)]) Hif2) as [ev [Hl Hc]].
      do 3 eexists. split; [reflexivity|]. rewrite Hl, Hl2. eauto.
    + left.
      destruct (end_event_appends st eid
        (Some [("success", JBool false); ("error", JStr "semantic_search_unavailable");
               ("error_type", JStr "DependencyError")]) Hif) as [ev [Hl Hc]].
      do 3 eexists. split; [reflexivity|]. eauto.
    + right. eexists. reflexivity.
Qed.

(** Telemetry turned off: [search_sessions] leaves the log untouched. *)
Lemma search_disabled_log (st : collector) env query idxf scope sf tf limit use_bm25 mode :
  st.(c_enabled) = false ->
  c_log (fst (search_sessions st env query idxf scope sf tf limit use_bm25 mode)) = c_log st.
Proof.
  intros Hd. unfold search_sessions, start_event. rewrite Hd. simpl.
  assert (Hu : forall st' e d, c_enabled st' = false -> update_event st' e d = st')
    by (intros st' e d H; unfold update_event; rewrite H; reflexivity).
  assert (He : forall st' e o, c_enabled st' = false -> end_event st' e o = st')
    by (intros st' e o H; unfold end_event; rewrite H; reflexivity).
  unfold search_body. destruct idxf as [| |idx]; simpl.
  - rewrite He by exact Hd. reflexivity.
  - rewrite Hu, He by exact Hd. reflexivity.
  - destruct (score_sessions env query _ use_bm25 mode); simpl.
    + rewrite Hu, He by exact Hd. reflexivity.
    + rewrite He by exact Hd. reflexivity.
    + rewrite Hu, He by exact Hd. reflexivity.
Qed.

Lemma end_event_outcome (st : collector) (eid : string) (o : dict) (P : dict -> Prop) :
  o <> [] -> in_flight st eid P ->
  exists ev, c_log (end_event st (Some eid) (Some o)) = c_log st ++ [dict_set "outcome" (JObj o) ev]
             /\ P ev.
Proof.
  intros Ho (He & Hid & ev & Hg & Hp).
  destruct o as [|kv o']; [congruence|].
  exists ev. split; [|exact Hp].
  unfold end_event, id_truthy. rewrite He, Hid, Hg. reflexivity.
Qed.

Lemma deep_merge_scalar (target rest : dict) (k : string) (v : json) :
  (forall d, v <> JObj d) ->
  deep_merge target ((k, v) :: rest) = deep_merge (dict_set k v target) rest.
Proof.
  intros Hv. unfold deep_merge. simpl.
  destruct (dict_get k target) as [[]|]; try reflexivity.
  destruct v; try reflexivity. exfalso. eapply Hv. reflexivity.
Qed.

(** The error dict written by the [except] block. *)
Lemma handler_fields (ev : dict) (e : exn) :
  let ev' := deep_merge ev [("error", JStr e.(exn_msg)); ("error_type", JStr e.(exn_type))] in
  dict_get "error" ev' = Some (JStr e.(exn_msg)) /\
  dict_get "error_type" ev' = Some (JStr e.(exn_type)).
Proof.
  simpl. rewrite !deep_merge_scalar by discriminate.
  unfold deep_merge at 1 2. simpl.
  rewrite dict_get_set_eq, dict_get_set_neq, dict_get_set_eq by discriminate.
  auto.
Qed.

(** ** C5: one event per search call, and the fields of every record *)

(** C5 (code bug): [log_event] adds a [timestamp] only when the key is
    absent and never generates an [event_id].  [smart_recall] passes
    ["event_id": None] (commented "Will be generated by log_event") and,
    for the excerpt record, ["timestamp": None] (commented "Will be added
    by collector"): the record appended keeps a null [event_id], so it
    lacks the core fields, and a null [timestamp] stays null. *)
Theorem C5_log_event_keeps_null_fields (st : collector) (event : dict) :
  st.(c_enabled) = true ->
  dict_get "event_id" event = Some JNull ->
  exists rec, c_log (log_event st event) = c_log st ++ [rec] /\
    dict_get "event_id" rec = Some JNull /\ ~ has_core rec /\
    (dict_get "timestamp" event = Some JNull -> dict_get "timestamp" rec = Some JNull).
Proof.
  intros He Hi. unfold log_event. rewrite He. simpl.
  eexists. split; [reflexivity|].
  assert (Hid : dict_get "event_id"
                  (redact_query (c_redactor st)
                     (if dict_has "timestamp" event then event
                      else dict_set "timestamp" (JStr (c_clock st)) event)) = Some JNull).
  { rewrite redact_query_get_other by discriminate.
    destruct (dict_has "timestamp" event); [exact Hi|].
    rewrite dict_get_set_neq by discriminate. exact Hi. }
  split; [exact Hid|]. split.
  - intros (i & t & ty & H1 & _). rewrite Hid in H1. discriminate.
  - intros Ht. rewrite redact_query_get_other by discriminate.
    unfold dict_has. rewrite Ht. exact Ht.
Qed.

(** Witness for C5 at the excerpt record of [smart_recall.main]. *)
Lemma C5_log_event_keeps_null_fields_witness :
  c_enabled collector_on = true /\ dict_get "event_id" excerpt_event = Some JNull /\
  exists rec, c_log (log_event collector_on excerpt_event) = c_log collector_on ++ [rec] /\
    dict_get "event_id" rec = Some JNull /\ ~ has_core rec /\
    (dict_get "timestamp" excerpt_event = Some JNull -> dict_get "timestamp" rec = Some JNull).
Proof.
  split; [reflexivity|]. split; [reflexivity|].
  apply C5_log_event_keeps_null_fields; reflexivity.
Defined.

(** X26: with telemetry enabled, every call to [search_sessions]
    (success, no results, or failure) appends exactly one record to the
    log, and that record carries a string [event_id], [timestamp] and
    [event_type]; with telemetry disabled the log is left unchanged. *)
Theorem X26_search_appends_one_event (st : collector) env query idxf scope sf tf limit
  use_bm25 mode :
  (st.(c_enabled) = true ->
   exists ev, c_log (fst (search_sessions st env query idxf scope sf tf limit use_bm25 mode))
              = c_log st ++ [ev] /\ has_core ev) /\
  (st.(c_enabled) = false ->
   c_log (fst (search_sessions st env query idxf scope sf tf limit use_bm25 mode)) = c_log st).
Proof.
  split; [|apply search_disabled_log].
  intros He.
  destruct (start_event_in_flight st "recall_triggered"
              (search_context env query scope sf tf limit mode) He
              (search_context_core_free _ _ _ _ _ _ _)) as (st1 & Hs & Hl & Hif).
  apply in_flight_weaken with (Q := has_core) in Hif; [|tauto].
  unfold search_sessions. rewrite Hs.
  destruct (search_body_cases st1 _ env query idxf sf tf limit use_bm25 mode Hif)
    as [(st2 & rs & ev & Hb & Hl2 & Hc) | (e & Hb)]; rewrite Hb; simpl.
  - exists ev. rewrite Hl2, Hl. auto.
  - destruct (update_event_in_flight st1 (uuid4_of (c_next st))
                [("error", JStr (exn_msg e)); ("error_type", JStr (exn_type e))]
                ltac:(repeat split) Hif) as [Hif2 Hl2].
    destruct (end_event_appends _ _ (Some [("success", JBool false)]) Hif2) as [ev [Hl3 Hc]].
    exists ev. rewrite Hl3, Hl2, Hl. auto.
Qed.

(** ** C1: exceptions inside the pipeline *)

(** C1 (counterexample): a corrupt index file makes [json.load] raise; the
    search raises the same exception instead of returning [[]], and the
    recorded outcome is only [{"success": false}], the error fields being
    top-level fields of the event. *)
Lemma C1_malformed_index_counterexample :
  let '(st', r) := search_sessions collector_on env0 "auth" IndexMalformed "all"
                     None None 5 true "auto" in
  r = Err json_decode_error /\
  exists ev, c_log st' = [ev] /\
    dict_get "outcome" ev = Some (JObj [("success", JBool false)]) /\
    dict_get "error_type" ev = Some (JStr "JSONDecodeError").
Proof.
  simpl. split; [reflexivity|]. eexists. split; [reflexivity|]. split; reflexivity.
Qed.

(** C1 (amended): when the pipeline after [start_event] raises [e],
    [search_sessions] re-raises [e] (there is no mode that swallows it), and
    with telemetry enabled the single record appended for the call has
    [outcome = {"success": false}] and top-level [error = str(e)] and
    [error_type = type(e).__name__]. *)
Theorem C1_search_exception_propagates (st : collector) env query idxf scope sf tf limit
  use_bm25 mode st1 eid st2 e :
  start_event st "recall_triggered" (search_context env query scope sf tf limit mode)
    = (st1, eid) ->
  search_body st1 eid env query idxf sf tf limit use_bm25 mode = (st2, Err e) ->
  snd (search_sessions st env query idxf scope sf tf limit use_bm25 mode) = Err e /\
  (st.(c_enabled) = true ->
   exists ev, c_log (fst (search_sessions st env query idxf scope sf tf limit use_bm25 mode))
                = c_log st ++ [ev] /\
     dict_get "outcome" ev = Some (JObj [("success", JBool false)]) /\
     dict_get "error" ev = Some (JStr e.(exn_msg)) /\
     dict_get "error_type" ev = Some (JStr e.(exn_type))).
Proof.
  intros Hs Hb. unfold search_sessions. rewrite Hs, Hb. split; [reflexivity|].
  intros He.
  destruct (start_event_in_flight st "recall_triggered"
              (search_context env query scope sf tf limit mode) He
              (search_context_core_free _ _ _ _ _ _ _)) as (st1' & Hs' & Hl & Hif).
  rewrite Hs in Hs'. injection Hs' as E1 E2. subst st1' eid.
  destruct (search_body_cases st1 _ env query idxf sf tf limit use_bm25 mode
              (in_flight_weaken _ _ _ has_core (fun ev H => proj1 H) Hif))
    as [(st3 & rs & ev & Hb' & _) | (e' & Hb')]; rewrite Hb' in Hb; [discriminate|].
  injection Hb as E3 E4. subst st2 e'. simpl.
  destruct Hif as (Hen & Hid & ev & Hg & _).
  unfold update_event, id_truthy. rewrite Hen, Hid, Hg. simpl.
  destruct (end_event_outcome
              (with_current st1 (events_set (uuid4_of (c_next st))
                 (deep_merge ev [("error", JStr (exn_msg e)); ("error_type", JStr (exn_type e))])
                 (c_current st1)))
              (uuid4_of (c_next st)) [("success", JBool false)]
              (fun ev' => ev' = deep_merge ev [("error", JStr (exn_msg e));
                                               ("error_type", JStr (exn_type e))])
              ltac:(discriminate)) as [ev2 [Hl2 ->]].
  { split; [exact Hen|]. split; [exact Hid|]. eexists. split; [apply events_get_set_eq|reflexivity]. }
  eexists. split; [etransitivity; [exact Hl2|]; simpl; rewrite Hl; reflexivity|].
  destruct (handler_fields ev e) as [H1 H2].
  rewrite dict_get_set_eq, !dict_get_set_neq by discriminate. auto.
Qed.

(** Witness for C1 at a corrupt index file. *)
Lemma C1_search_exception_propagates_witness :
  snd (search_sessions collector_on env0 "auth" IndexMalformed "all" None None 5 true "auto")
    = Err json_decode_error.
Proof.
  exact (proj1 (C1_search_exception_propagates collector_on env0 "auth" IndexMalformed "all"
                  None None 5 true "auto" _ _ _ json_decode_error eq_refl eq_refl)).
Defined.

(** ** C2: redaction on the telemetry ingress paths *)

(** C2 (code bug): [update_event] deep-merges the patch without calling the
    redactor, so whatever redactor is configured, a [query.raw_query]
    carried by an update reaches the log verbatim. *)
Theorem C2_update_event_stores_secret (r : string -> string) :
  let st0 := mk_collector true (Some r) [] [] 0 clock0 in
  let '(st1, eid) := start_event st0 "recall_triggered"
                       [("query", JObj [("raw_query", JStr "hello")])] in
  let st2 := update_event st1 eid [("query", JObj [("raw_query", JStr s5_query)])] in
  let st3 := end_event st2 eid (Some [("success", JBool true)]) in
  exists ev, c_log st3 = [ev] /\
    dict_get "query" ev = Some (JObj [("raw_query", JStr s5_query)]).
Proof.
  simpl. eexists. split; reflexivity.
Qed.

(** ** C4: semantic mode without the dense side *)

(** C4 (counterexample): with no embedding library, a semantic search
    returns [[]] and the outcome's [error_type] is ["DependencyError"], not
    ["semantic_unavailable"]. *)
Lemma C4_error_type_counterexample :
  let '(st', r) := search_sessions collector_on env0 "anything" (IndexOk empty_index) "all"
                     None None 5 true "semantic" in
  r = Ok [] /\
  exists ev, c_log st' = [ev] /\
    dict_get "outcome" ev =
      Some (JObj [("success", JBool false); ("error", JStr "semantic_search_unavailable");
                  ("error_type", JStr "DependencyError")]).
Proof.
  simpl. split; [reflexivity|]. eexists. split; reflexivity.
Qed.

(** C4 (amended): when semantic mode is requested and semantic scoring of
    the filtered index is unavailable, the search returns [[]] and, with
    telemetry enabled, the one record appended has outcome
    [{"success": false, "error": "semantic_search_unavailable",
      "error_type": "DependencyError"}]. *)
Theorem C4_semantic_unavailable (st : collector) env query idx scope sf tf limit use_bm25 :
  semantic_search env.(se_dense) query
    (mk_index (apply_filters idx.(i_sessions) sf tf) idx.(i_bm25) idx.(i_embedding)) = None ->
  snd (search_sessions st env query (IndexOk idx) scope sf tf limit use_bm25 "semantic")
    = Ok [] /\
  (st.(c_enabled) = true ->
   exists ev, c_log (fst (search_sessions st env query (IndexOk idx) scope sf tf limit
                            use_bm25 "semantic")) = c_log st ++ [ev] /\
     dict_get "outcome" ev = Some (JObj semantic_outcome)).
Proof.
  intros Hn.
  assert (Hsc : score_sessions env query
                  (mk_index (apply_filters idx.(i_sessions) sf tf) idx.(i_bm25) idx.(i_embedding))
                  use_bm25 "semantic" = SemanticUnavailable)
    by (unfold score_sessions; rewrite Hn; reflexivity).
  unfold search_sessions, search_body. rewrite Hsc.
  destruct (start_event st "recall_triggered"
              (search_context env query scope sf tf limit "semantic")) as [st1 eid] eqn:Hs.
  split; [reflexivity|]. intros He.
  destruct (start_event_in_flight st "recall_triggered"
              (search_context env query scope sf tf limit "semantic") He
              (search_context_core_free _ _ _ _ _ _ _)) as (st1' & Hs' & Hl & Hif).
  rewrite Hs in Hs'. injection Hs' as E1 E2. subst st1' eid.
  destruct (end_event_outcome st1 (uuid4_of (c_next st)) semantic_outcome _
              ltac:(discriminate) Hif) as [ev [Hl2 _]].
  eexists. split; [|apply dict_get_set_eq].
  etransitivity; [exact Hl2|]. rewrite Hl. reflexivity.
Qed.

(** Witness for C4: two stored sessions and two embedding rows; the
    session filter keeps one session, so the row check fails. *)
Lemma C4_semantic_unavailable_witness :
  semantic_search dense_two_rows "auth"
    (mk_index (apply_filters index_two.(i_sessions) (Some "s1") None)
              index_two.(i_bm25) index_two.(i_embedding)) = None /\
  snd (search_sessions collector_on env_dense "auth" (IndexOk index_two) "all" (Some "s1")
         None 5 true "semantic") = Ok [] /\
  exists ev, c_log (fst (search_sessions collector_on env_dense "auth" (IndexOk index_two)
                           "all" (Some "s1") None 5 true "semantic")) =
             c_log collector_on ++ [ev] /\
    dict_get "outcome" ev = Some (JObj semantic_outcome).
Proof.
  assert (Hn : semantic_search dense_two_rows "auth"
                 (mk_index (apply_filters index_two.(i_sessions) (Some "s1") None)
                           index_two.(i_bm25) index_two.(i_embedding)) = None)
    by reflexivity.
  destruct (C4_semantic_unavailable collector_on env_dense "auth" index_two "all" (Some "s1")
              None 5 true Hn) as [H1 H2].
  split; [exact Hn|]. split; [exact H1|]. exact (H2 eq_refl).
Defined.

(** ** The returned value *)

Lemma search_sessions_outcome (st : collector) env query idxf scope sf tf limit use_bm25 mode :
  snd (search_sessions st env query idxf scope sf tf limit use_bm25 mode) =
  search_outcome env query idxf sf tf limit use_bm25 mode.
Proof.
  unfold search_sessions.
  destruct (start_event st "recall_triggered"
              (search_context env query scope sf tf limit mode)) as [st1 eid].
  unfold search_body, search_outcome. destruct idxf as [| |idx]; [reflexivity|reflexivity|].
  destruct (score_sessions env query _ use_bm25 mode); reflexivity.
Qed.

(** ** Generic list facts *)

Lemma nth_error_mapi_from {A B : Type} (f : nat -> A -> B) (l : list A) (k n : nat) :
  nth_error (mapi_from f k l) n = option_map (f (k + n)%nat) (nth_error l n).
Proof.
  revert k n. induction l as [|x xs IH]; intros k n; [destruct n; reflexivity|].
  destruct n as [|n]; simpl.
  - rewrite Nat.add_0_r. reflexivity.
  - rewrite IH. rewrite Nat.add_succ_r. reflexivity.
Qed.

Lemma length_mapi_from {A B : Type} (f : nat -> A -> B) (l : list A) (k : nat) :
  length (mapi_from f k l) = length l.
Proof. revert k; induction l; intros k; simpl; auto. Qed.

Lemma map_mapi_from {A B C : Type} (g : B -> C) (f : nat -> A -> B) (h : A -> C)
  (l : list A) (k : nat) :
  (forall i x, g (f i x) = h x) -> map g (mapi_from f k l) = map h l.
Proof.
  intros H. revert k; induction l as [|x xs IH]; intros k; simpl; [reflexivity|].
  rewrite H, IH. reflexivity.
Qed.

Lemma subseq_refl {A : Type} (l : list A) : subseq l l.
Proof. induction l; [apply subseq_nil|apply subseq_keep; assumption]. Qed.

Lemma subseq_trans {A : Type} (l1 l2 l3 : list A) :
  subseq l1 l2 -> subseq l2 l3 -> subseq l1 l3.
Proof.
  intros H12 H23. revert l1 H12. induction H23; intros l0 H.
  - inversion H; subst. constructor.
  - constructor. apply IHsubseq. exact H.
  - inversion H; subst.
    + constructor.
    + apply subseq_skip. apply IHsubseq. assumption.
    + apply subseq_keep. apply IHsubseq. assumption.
Qed.

Lemma subseq_filter {A : Type} (p : A -> bool) (l : list A) : subseq (filter p l) l.
Proof.
  induction l as [|x xs IH]; simpl; [constructor|].
  destruct (p x); [apply subseq_keep|apply subseq_skip]; exact IH.
Qed.

Lemma subseq_firstn {A : Type} (k : nat) (l : list A) : subseq (firstn k l) l.
Proof.
  revert k; induction l as [|x xs IH]; intros [|k]; simpl.
  - apply subseq_nil.
  - apply subseq_nil.
  - apply subseq_nil.
  - apply subseq_keep. apply IH.
Qed.

Lemma subseq_map {A B : Type} (f : A -> B) (l1 l2 : list A) :
  subseq l1 l2 -> subseq (map f l1) (map f l2).
Proof.
  induction 1; simpl; [apply subseq_nil|apply subseq_skip|apply subseq_keep]; assumption.
Qed.

Lemma subseq_filter_mono {A : Type} (p : A -> bool) (l1 l2 : list A) :
  subseq l1 l2 -> subseq (filter p l1) (filter p l2).
Proof.
  induction 1; simpl; [apply subseq_nil| |].
  - destruct (p x); [apply subseq_skip|]; assumption.
  - destruct (p x); [apply subseq_keep|]; assumption.
Qed.

Lemma py_slice_to_subseq {A : Type} (k : Z) (l : list A) : subseq (py_slice_to k l) l.
Proof. unfold py_slice_to. destruct (0 <=? k)%Z; apply subseq_firstn. Qed.

(** ** BM25 rows and the hybrid fallback *)

Lemma rows_ok_map (f : session -> result) (ss : list session) :
  (forall s, bm25_row s (f s)) -> rows_ok ss (map f ss).
Proof.
  intros Hf. split; [apply length_map|].
  intros n s r Hs Hr. rewrite nth_error_map, Hs in Hr. injection Hr as <-. apply Hf.
Qed.

Lemma rows_ok_mapi (f : nat -> session -> result) (ss : list session) :
  (forall i s, bm25_row s (f i s)) -> rows_ok ss (mapi f ss).
Proof.
  intros Hf. split; [apply length_mapi_from|].
  intros n s r Hs Hr. unfold mapi in Hr. rewrite nth_error_mapi_from, Hs in Hr.
  injection Hr as <-. apply Hf.
Qed.

Lemma bm25_row_mk (s : session) (rel b t : R) :
  bm25_row s (mk_result s rel (Some b) None (Some t) "bm25").
Proof. exists b, t. reflexivity. Qed.

Lemma bm25_search_rows (env : search_env) (query : string) (idx : index) (rs : list result) :
  bm25_search env query idx = Ok rs -> rows_ok idx.(i_sessions) rs.
Proof.
  unfold bm25_search, temporal_only.
  destruct (i_sessions idx) as [|s0 ss] eqn:Hss.
  { destruct (i_bm25 idx) as [[|kv d]|]; intros H; injection H as <-;
      (split; [reflexivity | intros [|n]; discriminate]). }
  rewrite <- Hss.
  destruct (i_bm25 idx) as [[|kv d]|];
    try (intros H; injection H as <-; apply rows_ok_map; intros; apply bm25_row_mk).
  destruct (tokenize_query query) as [|t0 ts];
    [intros H; injection H as <-; apply rows_ok_map; intros; apply bm25_row_mk|].
  destruct (forallb _ _);
    [intros H; injection H as <-; apply rows_ok_map; intros; apply bm25_row_mk|].
  destruct (se_bm25 env _ _ _) as [scores|e].
  - intros H; injection H as <-. apply rows_ok_mapi. intros. apply bm25_row_mk.
  - destruct (is_value_or_index_error e); [|discriminate].
    intros H; injection H as <-; apply rows_ok_map; intros; apply bm25_row_mk.
Qed.

(** With no dense scores, [hybrid_search] returns exactly what
    [bm25_search] returns. *)
Lemma hybrid_search_no_dense (env : search_env) (query : string) (idx : index) :
  semantic_search env.(se_dense) query idx = None ->
  hybrid_search env query idx = bm25_search env query idx.
Proof.
  intros Hn. unfold hybrid_search. rewrite Hn.
  destruct (bm25_search env query idx) as [rs|e] eqn:Hb; [|reflexivity].
  destruct (bm25_search_rows env query idx rs Hb) as [Hlen Hrow].
  f_equal. apply nth_error_ext. intros n. unfold mapi. rewrite nth_error_mapi_from.
  simpl. destruct (nth_error (i_sessions idx) n) as [s|] eqn:Hs.
  - destruct (nth_error rs n) as [r|] eqn:Hr.
    + destruct (Hrow n s r Hs Hr) as [b [t Hrt]]. rewrite Hrt. reflexivity.
    + apply nth_error_None in Hr. assert (n < length (i_sessions idx))%nat
        by (apply nth_error_Some; congruence). lia.
  - symmetry. apply nth_error_None. apply nth_error_None in Hs. lia.
Qed.

(** ** Hybrid mode without dense scores, with a BM25 index *)

(** X25: if [semantic_search] on the filtered index gives no scores,
    [use_bm25] holds and the stored [bm25_index] is non-empty, then a
    request in hybrid mode (or in auto mode) returns the same result list
    (sessions, scores, order) as the same request in explicit bm25 mode. *)
Theorem X25_hybrid_no_dense_is_bm25 (env : search_env) (query : string) (idx : index)
  (session_filter : option string) (topics_filter : option (list string)) (limit : Z)
  (search_mode : string) :
  (search_mode = "hybrid" \/ search_mode = "auto") ->
  semantic_search env.(se_dense) query
    (mk_index (apply_filters idx.(i_sessions) session_filter topics_filter)
              idx.(i_bm25) idx.(i_embedding)) = None ->
  dict_truthy idx.(i_bm25) = true ->
  search_outcome env query (IndexOk idx) session_filter topics_filter limit true search_mode =
  search_outcome env query (IndexOk idx) session_filter topics_filter limit true "bm25".
Proof.
  intros Hmode Hsem Hbm. unfold search_outcome, score_sessions. simpl i_bm25.
  rewrite Hbm. simpl andb.
  rewrite (hybrid_search_no_dense _ _ _ Hsem).
  destruct Hmode as [-> | ->]; simpl;
    destruct (match i_embedding idx with Some _ => _ | None => false end); simpl;
    destruct (bm25_search _ _ _); reflexivity.
Qed.

(** Witness for X25: two sessions, a BM25 index and an embedding index,
    with no embedding library installed. *)
Lemma X25_hybrid_no_dense_is_bm25_witness :
  search_outcome env0 "auth" (IndexOk index_two) None None 5 true "hybrid" =
  search_outcome env0 "auth" (IndexOk index_two) None None 5 true "bm25".
Proof.
  apply (X25_hybrid_no_dense_is_bm25 env0 "auth" index_two None None 5 "hybrid").
  - left. reflexivity.
  - reflexivity.
  - reflexivity.
Defined.

(** ** Shared lemmas: ranking keeps the elements *)

Lemma in_insert_desc (x y : result) (l : list result) :
  In x (insert_desc y l) <-> y = x \/ In x l.
Proof.
  induction l as [|z l IH]; simpl.
  - split; intros [H|H]; auto; contradiction.
  - destruct (Rlt_dec (r_relevance y) (r_relevance z)); simpl.
    + rewrite IH. tauto.
    + tauto.
Qed.

Lemma in_sort_desc (x : result) (l : list result) : In x (sort_desc l) <-> In x l.
Proof.
  induction l as [|y l IH]; simpl; [tauto|].
  rewrite in_insert_desc, IH. tauto.
Qed.

Lemma subseq_in {A : Type} (x : A) (l1 l2 : list A) : subseq l1 l2 -> In x l1 -> In x l2.
Proof. induction 1; simpl; tauto. Qed.

Lemma in_py_slice_to {A : Type} (k : Z) (x : A) (l : list A) :
  In x (py_slice_to k l) -> In x l.
Proof. apply subseq_in, py_slice_to_subseq. Qed.

(** Every member of a list built by [bm25_search] is a BM25 row. *)
Lemma bm25_search_members (env : search_env) (query : string) (idx : index)
  (rs : list result) (r : result) :
  bm25_search env query idx = Ok rs -> In r rs ->
  r.(r_mode) = "bm25" /\ r.(r_semantic) = None.
Proof.
  intros Hb Hin. destruct (bm25_search_rows _ _ _ _ Hb) as [Hlen Hrow].
  destruct (In_nth_error _ _ Hin) as [n Hn].
  destruct (nth_error (i_sessions idx) n) as [s|] eqn:Hs.
  - destruct (Hrow n s r Hs Hn) as [b [t ->]]. split; reflexivity.
  - apply nth_error_None in Hs. assert (n < length rs)%nat
      by (apply nth_error_Some; congruence). lia.
Qed.

(** [semantic_search] gives scores only when the stored matrix has one row
    per session of the index it is given. *)
Lemma semantic_search_rows (de : dense_env) (query : string) (idx : index) (ss : list R) :
  semantic_search de query idx = Some ss ->
  exists embeddings, de.(de_embeddings) = Some embeddings /\
                     length embeddings = length idx.(i_sessions).
Proof.
  unfold semantic_search.
  destruct (de_available de), (dict_truthy (i_embedding idx)); simpl; try discriminate.
  destruct (de_embeddings de) as [emb|]; [|discriminate].
  destruct (Nat.eqb (length emb) (length (i_sessions idx))) eqn:He; simpl; [|discriminate].
  intros _. exists emb. split; [reflexivity|]. apply Nat.eqb_eq. exact He.
Qed.

(** ** C10: the row check runs against the filtered sessions *)

(** C10: if the stored embedding matrix has one row per session of the full
    index and the session or topic filter drops at least one session, then
    in hybrid or auto mode [semantic_search] on the filtered index gives no
    scores, and every returned result is a BM25 row: [search_mode] is
    [bm25] and it carries no semantic score. *)
Theorem C10_filtered_row_check (env : search_env) (query : string) (idx : index)
  (session_filter : option string) (topics_filter : option (list string)) (limit : Z)
  (use_bm25 : bool) (search_mode : string) (embeddings : list (list R))
  (rs : list result) :
  env.(se_dense).(de_embeddings) = Some embeddings ->
  length embeddings = length idx.(i_sessions) ->
  (length (apply_filters idx.(i_sessions) session_filter topics_filter)
     < length idx.(i_sessions))%nat ->
  (search_mode = "hybrid" \/ search_mode = "auto") ->
  search_outcome env query (IndexOk idx) session_filter topics_filter limit use_bm25
    search_mode = Ok rs ->
  semantic_search env.(se_dense) query
    (mk_index (apply_filters idx.(i_sessions) session_filter topics_filter)
              idx.(i_bm25) idx.(i_embedding)) = None /\
  Forall (fun r => r.(r_mode) = "bm25" /\ r.(r_semantic) = None) rs.
Proof.
  intros Hemb Hlen Hfilt Hmode Hout.
  assert (Hsem : semantic_search env.(se_dense) query
    (mk_index (apply_filters idx.(i_sessions) session_filter topics_filter)
              idx.(i_bm25) idx.(i_embedding)) = None).
  { destruct (semantic_search _ _ _) eqn:E; [|reflexivity].
    apply semantic_search_rows in E. destruct E as [e [He Hl]].
    rewrite Hemb in He. injection He as <-. simpl in Hl. lia. }
  split; [exact Hsem|].
  unfold search_outcome, score_sessions in Hout.
  rewrite (hybrid_search_no_dense _ _ _ Hsem) in Hout.
  destruct (bm25_search env query _) as [rs0|e] eqn:Hb;
    destruct Hmode as [-> | ->]; simpl in Hout;
    destruct (match i_embedding idx with Some _ => _ | None => false end);
    simpl in Hout; try discriminate;
    injection Hout as <-; apply Forall_forall; intros r Hr;
    apply in_py_slice_to in Hr; rewrite in_sort_desc in Hr;
    exact (bm25_search_members _ _ _ _ _ Hb Hr).
Qed.

Lemma C10_filtered_row_check_witness :
  semantic_search dense_two_rows ""
    (mk_index [sess_auth] (Some [("avgdl", JInt 1)]) (Some [("model", JStr "m")])) = None /\
  Forall (fun r => r.(r_mode) = "bm25" /\ r.(r_semantic) = None)
    [mk_result sess_auth (temporal 0 sess_auth) (Some 0%R) None
               (Some (temporal 0 sess_auth)) "bm25"].
Proof.
  apply (C10_filtered_row_check env_dense "" index_two (Some "s1") None 5 true "hybrid"
           [[1%R]; [1%R]]).
  - reflexivity.
  - reflexivity.
  - vm_compute. lia.
  - left. reflexivity.
  - reflexivity.
Defined.

(** ** Shared lemmas: the scored list follows the filtered sessions *)

Lemma rows_ok_sessions (ss : list session) (rs : list result) :
  rows_ok ss rs -> map r_session rs = ss.
Proof.
  intros [Hlen Hrow]. apply nth_error_ext. intros n. rewrite nth_error_map.
  destruct (nth_error ss n) as [s|] eqn:Hs.
  - destruct (nth_error rs n) as [r|] eqn:Hr.
    + destruct (Hrow n s r Hs Hr) as [b [t ->]]. reflexivity.
    + apply nth_error_None in Hr. assert (n < length ss)%nat
        by (apply nth_error_Some; congruence). lia.
  - apply nth_error_None in Hs. assert (Hr : nth_error rs n = None)
      by (apply nth_error_None; lia). rewrite Hr. reflexivity.
Qed.

Lemma bm25_search_sessions (env : search_env) (query : string) (idx : index) rs :
  bm25_search env query idx = Ok rs -> map r_session rs = idx.(i_sessions).
Proof. intros H. apply rows_ok_sessions. exact (bm25_search_rows _ _ _ _ H). Qed.

Lemma hybrid_search_sessions (env : search_env) (query : string) (idx : index) rs :
  hybrid_search env query idx = Ok rs -> map r_session rs = idx.(i_sessions).
Proof.
  unfold hybrid_search. destruct (bm25_search env query idx); [|discriminate].
  intros H. injection H as <-. unfold mapi.
  rewrite (map_mapi_from r_session _ (fun x => x)); [apply map_id|].
  intros i x.
  repeat match goal with |- context [match ?e with _ => _ end] => destruct e end;
    reflexivity.
Qed.

Lemma of_res_scored (m m' : string) (r : res (list result)) (l : list result) :
  of_res m r = Scored m' l -> r = Ok l.
Proof. destruct r; simpl; intros H; [injection H as _ <-; reflexivity|discriminate]. Qed.

(** Every mode scores exactly the sessions of the filtered index, in their
    stored order. *)
Lemma score_sessions_sessions (env : search_env) (query : string) (fidx : index)
  (use_bm25 : bool) (search_mode m : string) (scored : list result) :
  score_sessions env query fidx use_bm25 search_mode = Scored m scored ->
  map r_session scored = fidx.(i_sessions).
Proof.
  assert (Hsimple : map r_session (simple_scored query (i_sessions fidx)) = i_sessions fidx).
  { unfold simple_scored. rewrite map_map. apply map_id. }
  unfold score_sessions.
  destruct (String.eqb search_mode "simple");
    [intros H; injection H as _ <-; exact Hsimple|].
  destruct (String.eqb search_mode "semantic").
  { destruct (semantic_search _ _ _) as [ss|]; [|discriminate].
    intros H; injection H as _ <-. unfold semantic_scored, mapi.
    rewrite (map_mapi_from r_session _ (fun x => x)); [apply map_id|reflexivity]. }
  destruct (String.eqb search_mode "hybrid" || String.eqb search_mode "auto").
  { destruct (_ || _); intros H; apply of_res_scored in H;
      [apply hybrid_search_sessions in H|apply bm25_search_sessions in H]; exact H. }
  destruct (String.eqb search_mode "bm25");
    (destruct (use_bm25 && dict_truthy (i_bm25 fidx));
      [intros H; apply of_res_scored in H; apply bm25_search_sessions in H; exact H
      |intros H; injection H as _ <-; exact Hsimple]).
Qed.

(** ** Shared lemmas: the ranking is sorted and stable *)

Lemma insert_desc_hd (x y : result) (l : list result) :
  ranked_before y x -> HdRel ranked_before y l -> HdRel ranked_before y (insert_desc x l).
Proof.
  intros Hyx Hl. destruct l as [|z l]; simpl.
  - constructor. exact Hyx.
  - inversion Hl; subst. destruct (Rlt_dec (r_relevance x) (r_relevance z));
      constructor; assumption.
Qed.

Lemma insert_desc_sorted (x : result) (l : list result) :
  Sorted ranked_before l -> Sorted ranked_before (insert_desc x l).
Proof.
  induction l as [|y ys IH]; intros H; simpl.
  - constructor; constructor.
  - inversion H as [|? ? Hs Hhd]; subst.
    destruct (Rlt_dec (r_relevance x) (r_relevance y)) as [Hlt|Hge].
    + constructor; [apply IH; exact Hs|].
      apply insert_desc_hd; [unfold ranked_before; lra|exact Hhd].
    + constructor; [exact H|]. constructor. unfold ranked_before. lra.
Qed.

Lemma sort_desc_sorted (l : list result) : Sorted ranked_before (sort_desc l).
Proof.
  induction l as [|x xs IH]; simpl; [constructor|]. apply insert_desc_sorted, IH.
Qed.

Lemma firstn_sorted (k : nat) (l : list result) :
  Sorted ranked_before l -> Sorted ranked_before (firstn k l).
Proof.
  revert k; induction l as [|x xs IH]; intros [|k] H; simpl; [constructor..|].
  inversion H as [|? ? Hs Hhd]; subst. constructor; [apply IH, Hs|].
  destruct xs as [|y ys]; [destruct k; constructor|].
  destruct k; simpl; constructor. inversion Hhd; assumption.
Qed.

Lemma py_slice_to_sorted (k : Z) (l : list result) :
  Sorted ranked_before l -> Sorted ranked_before (py_slice_to k l).
Proof. unfold py_slice_to. destruct (0 <=? k)%Z; apply firstn_sorted. Qed.

(** Insertion moves [x] only past results with a strictly larger score, so
    among the results of one score the order is unchanged. *)
Lemma filter_insert_desc (c : R) (x : result) (l : list result) :
  filter (score_is c) (insert_desc x l) = filter (score_is c) (x :: l).
Proof.
  induction l as [|y ys IH]; simpl; [reflexivity|].
  destruct (Rlt_dec (r_relevance x) (r_relevance y)) as [Hlt|Hge]; [|reflexivity].
  simpl. rewrite IH. simpl. unfold score_is.
  destruct (Req_EM_T (r_relevance x) c) as [Hx|Hx];
    destruct (Req_EM_T (r_relevance y) c) as [Hy|Hy]; try reflexivity.
  exfalso. lra.
Qed.

Lemma filter_sort_desc (c : R) (l : list result) :
  filter (score_is c) (sort_desc l) = filter (score_is c) l.
Proof.
  induction l as [|x xs IH]; simpl; [reflexivity|].
  rewrite filter_insert_desc. simpl. rewrite IH. reflexivity.
Qed.

Lemma apply_filters_subseq (sessions : list session) session_filter topics_filter :
  subseq (apply_filters sessions session_filter topics_filter) sessions.
Proof.
  unfold apply_filters.
  assert (H1 : subseq (match session_filter with
                       | Some f => if String.eqb f "" then sessions
                                   else filter (fun s => str_in f s.(s_id)) sessions
                       | None => sessions end) sessions).
  { destruct session_filter as [f|]; [destruct (String.eqb f "")|];
      first [apply subseq_refl | apply subseq_filter]. }
  destruct topics_filter as [[|t ts]|]; try exact H1.
  eapply subseq_trans; [apply subseq_filter|exact H1].
Qed.

(** ** C7: ordering of the results *)

Lemma simple_score_auth (s : session) :
  s.(s_summary) = "auth" -> s.(s_topics) = [] -> s.(s_files) = [] -> s.(s_beads) = [] ->
  simple_relevance_score "auth" s = (3 / 7)%R.
Proof.
  intros Hs Ht Hf Hb. unfold simple_relevance_score. rewrite Hs, Ht, Hf, Hb.
  simpl. field.
Qed.

(** ** C3: hybrid mode without dense scores and without a BM25 index *)

(** All results of one score: sorting leaves the list as it is. *)
Lemma sort_desc_const (c : R) (l : list result) :
  Forall (fun r => r_relevance r = c) l -> sort_desc l = l.
Proof.
  induction l as [|x xs IH]; intros H; simpl; [reflexivity|].
  inversion H as [|? ? Hx Hxs]; subst. rewrite IH by exact Hxs.
  destruct xs as [|y ys]; simpl; [reflexivity|].
  inversion Hxs as [|? ? Hy _]; subst.
  destruct (Rlt_dec (r_relevance x) (r_relevance y)) as [Hlt|_]; [lra|reflexivity].
Qed.

(** The first result of the sorted list has the largest score. *)
Lemma sort_desc_head_max (l : list result) (x : result) :
  In x l -> exists h t, sort_desc l = h :: t /\ (r_relevance x <= r_relevance h)%R.
Proof.
  intros Hx. rewrite <- in_sort_desc in Hx.
  pose proof (sort_desc_sorted l) as Hs.
  destruct (sort_desc l) as [|h t]; [contradiction|].
  exists h, t. split; [reflexivity|].
  apply Sorted_StronglySorted in Hs; [|intros a b c; unfold ranked_before; lra].
  inversion Hs as [|? ? _ Hf]; subst.
  destruct Hx as [<-|Hx]; [lra|].
  rewrite Forall_forall in Hf. exact (Hf x Hx).
Qed.

(** C3 (code bug): with no dense scores and no [bm25_index], hybrid mode
    still calls [bm25_search], whose branch commented "Fallback to simple
    scoring if BM25 not available" gives every session the score 0,
    while explicit bm25 mode does fall back to [simple_relevance_score].
    So for a positive limit and a filtered session the simple scorer
    rates above 0, the two requests return different lists. *)
Theorem C3_hybrid_no_bm25_index (env : search_env) (query : string) (idx : index)
  (session_filter : option string) (topics_filter : option (list string)) (limit : Z) :
  semantic_search env.(se_dense) query
    (mk_index (apply_filters idx.(i_sessions) session_filter topics_filter)
              idx.(i_bm25) idx.(i_embedding)) = None ->
  dict_truthy idx.(i_bm25) = false ->
  let fs := apply_filters idx.(i_sessions) session_filter topics_filter in
  search_outcome env query (IndexOk idx) session_filter topics_filter limit true "hybrid" =
    Ok (py_slice_to limit
          (map (fun s => mk_result s 0%R (Some 0%R) None (Some 0.5%R) "bm25") fs)) /\
  search_outcome env query (IndexOk idx) session_filter topics_filter limit true "bm25" =
    Ok (py_slice_to limit (sort_desc (simple_scored query fs))) /\
  ((0 < limit)%Z -> (exists s, In s fs /\ (0 < simple_relevance_score query s)%R) ->
   search_outcome env query (IndexOk idx) session_filter topics_filter limit true "hybrid" <>
   search_outcome env query (IndexOk idx) session_filter topics_filter limit true "bm25").
Proof.
  intros Hsem Hbm. cbv zeta.
  assert (Hb : bm25_search env query
                 (mk_index (apply_filters idx.(i_sessions) session_filter topics_filter)
                           idx.(i_bm25) idx.(i_embedding)) =
               Ok (map (fun s => mk_result s 0%R (Some 0%R) None (Some 0.5%R) "bm25")
                       (apply_filters idx.(i_sessions) session_filter topics_filter))).
  { unfold bm25_search. cbn [i_bm25 i_sessions].
    destruct (i_bm25 idx) as [[|kv d]|] eqn:E;
      [reflexivity|simpl in Hbm; discriminate|reflexivity]. }
  assert (Hh : score_sessions env query
                 (mk_index (apply_filters idx.(i_sessions) session_filter topics_filter)
                           idx.(i_bm25) idx.(i_embedding)) true "hybrid" =
               Scored "hybrid"
                 (map (fun s => mk_result s 0%R (Some 0%R) None (Some 0.5%R) "bm25")
                      (apply_filters idx.(i_sessions) session_filter topics_filter))).
  { unfold score_sessions. rewrite (hybrid_search_no_dense _ _ _ Hsem), Hb.
    cbn [String.eqb orb Ascii.eqb Bool.eqb].
    destruct (match i_embedding _ with Some _ => _ | None => false end); reflexivity. }
  assert (Hm : score_sessions env query
                 (mk_index (apply_filters idx.(i_sessions) session_filter topics_filter)
                           idx.(i_bm25) idx.(i_embedding)) true "bm25" =
               Scored "simple" (simple_scored query
                                  (apply_filters idx.(i_sessions) session_filter topics_filter))).
  { unfold score_sessions. cbn [i_bm25]. rewrite Hbm. reflexivity. }
  assert (Ho_h : search_outcome env query (IndexOk idx) session_filter topics_filter limit true
                   "hybrid" =
                 Ok (py_slice_to limit
                       (map (fun s => mk_result s 0%R (Some 0%R) None (Some 0.5%R) "bm25")
                            (apply_filters idx.(i_sessions) session_filter topics_filter)))).
  { unfold search_outcome. rewrite Hh. rewrite (sort_desc_const 0%R); [reflexivity|].
    apply Forall_forall. intros r Hr. apply in_map_iff in Hr.
    destruct Hr as [s [<- _]]. reflexivity. }
  assert (Ho_b : search_outcome env query (IndexOk idx) session_filter topics_filter limit true
                   "bm25" =
                 Ok (py_slice_to limit (sort_desc (simple_scored query
                       (apply_filters idx.(i_sessions) session_filter topics_filter)))))
    by (unfold search_outcome; rewrite Hm; reflexivity).
  split; [exact Ho_h|]. split; [exact Ho_b|].
  intros Hl [s [Hs Hpos]]. rewrite Ho_h, Ho_b. intros E. injection E as E.
  destruct (sort_desc_head_max
              (simple_scored query (apply_filters idx.(i_sessions) session_filter topics_filter))
              (mk_result s (simple_relevance_score query s) None None None "simple"))
    as [h [t [Hst Hle]]].
  { unfold simple_scored. apply in_map_iff. exists s. split; [reflexivity|exact Hs]. }
  rewrite Hst in E.
  destruct (apply_filters idx.(i_sessions) session_filter topics_filter) as [|s0 rest];
    [contradiction|].
  unfold py_slice_to in E. rewrite (proj2 (Z.leb_le 0 limit)) in E by lia.
  replace (Z.to_nat limit) with (S (Z.to_nat limit - 1)) in E by lia.
  cbn [map firstn] in E. injection E as Eh _.
  rewrite <- Eh in Hle. cbn [r_relevance] in Hle. lra.
Qed.

(** Witness for C3: no [bm25_index], a session the query misses stored
    before one it matches. *)
Lemma C3_hybrid_no_bm25_index_witness :
  search_outcome env0 "auth" (IndexOk index_c3) None None 5 true "hybrid" =
    Ok [mk_result sess_deploy 0%R (Some 0%R) None (Some 0.5%R) "bm25";
        mk_result sess_auth 0%R (Some 0%R) None (Some 0.5%R) "bm25"] /\
  search_outcome env0 "auth" (IndexOk index_c3) None None 5 true "bm25" =
    Ok (py_slice_to 5 (sort_desc (simple_scored "auth" [sess_deploy; sess_auth]))) /\
  search_outcome env0 "auth" (IndexOk index_c3) None None 5 true "hybrid" <>
  search_outcome env0 "auth" (IndexOk index_c3) None None 5 true "bm25".
Proof.
  destruct (C3_hybrid_no_bm25_index env0 "auth" index_c3 None None 5 eq_refl eq_refl)
    as [H1 [H2 H3]].
  split; [exact H1|]. split; [exact H2|]. apply H3; [lia|].
  exists sess_auth. split; [right; left; reflexivity|].
  rewrite simple_score_auth by reflexivity. lra.
Defined.

(** C7 (counterexample): two sessions with equal simple scores come back in
    stored order, the older capture first, with no [captured_at]
    tie-break. *)
Lemma C7_tie_order_counterexample :
  search_outcome env0 "auth" (IndexOk index_tie) None None 5 true "simple" =
    Ok [mk_result sess_old (simple_relevance_score "auth" sess_old) None None None "simple";
        mk_result sess_new (simple_relevance_score "auth" sess_new) None None None "simple"] /\
  simple_relevance_score "auth" sess_old = simple_relevance_score "auth" sess_new /\
  sess_old.(s_stamp) = Stamp 1%R /\ sess_new.(s_stamp) = Stamp 2%R.
Proof.
  assert (Ho : simple_relevance_score "auth" sess_old = (3 / 7)%R)
    by (apply simple_score_auth; reflexivity).
  assert (Hn : simple_relevance_score "auth" sess_new = (3 / 7)%R)
    by (apply simple_score_auth; reflexivity).
  split; [|split; [congruence|split; reflexivity]].
  unfold search_outcome, score_sessions, simple_scored. simpl.
  destruct (Rlt_dec (simple_relevance_score "auth" sess_old)
                    (simple_relevance_score "auth" sess_new)) as [Hlt|_];
    [rewrite Ho, Hn in Hlt; lra|reflexivity].
Qed.

Lemma simple_score_deploy : simple_relevance_score "auth" sess_deploy = 0%R.
Proof. unfold simple_relevance_score. simpl. lra. Qed.

(** Simple mode over [index_rank] ranks the two tied [auth] sessions
    first, in stored order, then the non-match. *)
Lemma rank_outcome (k : Z) :
  search_outcome env0 "auth" (IndexOk index_rank) None None k true "simple" =
  Ok (py_slice_to k [simple_row "auth" sess_old; simple_row "auth" sess_new;
                     simple_row "auth" sess_deploy]).
Proof.
  assert (Ho : simple_relevance_score "auth" sess_old = (3 / 7)%R)
    by (apply simple_score_auth; reflexivity).
  assert (Hn : simple_relevance_score "auth" sess_new = (3 / 7)%R)
    by (apply simple_score_auth; reflexivity).
  pose proof simple_score_deploy as Hd.
  unfold search_outcome, score_sessions, simple_scored, simple_row, index_rank.
  cbn -[simple_relevance_score sess_old sess_new sess_deploy].
  rewrite Ho, Hn, Hd.
  repeat (destruct (Rlt_dec _ _); [try (exfalso; lra)|try (exfalso; lra)];
          cbn -[simple_relevance_score sess_old sess_new sess_deploy]).
  reflexivity.
Qed.

(** C7 (amended): the returned list is sorted by relevance, highest first,
    and the results sharing any one score appear in the order their
    sessions are stored in the index (Python's sort is stable); no
    [captured_at] or [session_id] tie-break is applied. *)
Theorem C7_sorted_stable (env : search_env) (query : string) (idx : index)
  (session_filter : option string) (topics_filter : option (list string)) (limit : Z)
  (use_bm25 : bool) (search_mode : string) (rs : list result) :
  search_outcome env query (IndexOk idx) session_filter topics_filter limit use_bm25
    search_mode = Ok rs ->
  Sorted ranked_before rs /\
  forall c, subseq (map r_session (filter (score_is c) rs)) idx.(i_sessions).
Proof.
  unfold search_outcome.
  destruct (score_sessions _ _ _ _ _) as [m scored| |e] eqn:Hsc; intros H;
    try discriminate; injection H as <-.
  - split; [apply py_slice_to_sorted, sort_desc_sorted|]. intros c.
    eapply subseq_trans.
    { apply subseq_map, subseq_filter_mono, py_slice_to_subseq. }
    rewrite filter_sort_desc.
    eapply subseq_trans; [apply subseq_map, subseq_filter|].
    rewrite (score_sessions_sessions _ _ _ _ _ _ _ Hsc). simpl i_sessions.
    apply apply_filters_subseq.
  - split; [constructor|intros c; apply subseq_nil].
Qed.

Lemma C7_sorted_stable_witness :
  let rs := [simple_row "auth" sess_old; simple_row "auth" sess_new;
             simple_row "auth" sess_deploy] in
  search_outcome env0 "auth" (IndexOk index_rank) None None 5 true "simple" = Ok rs /\
  Sorted ranked_before rs /\
  forall c, subseq (map r_session (filter (score_is c) rs)) [sess_deploy; sess_old; sess_new].
Proof.
  cbv zeta.
  assert (H : search_outcome env0 "auth" (IndexOk index_rank) None None 5 true "simple" =
              Ok [simple_row "auth" sess_old; simple_row "auth" sess_new;
                  simple_row "auth" sess_deploy]) by exact (rank_outcome 5).
  split; [exact H|].
  exact (C7_sorted_stable env0 "auth" index_rank None None 5 true "simple" _ H).
Defined.

(** ** C8: the size of the result list *)

Lemma length_insert_desc (x : result) (l : list result) :
  length (insert_desc x l) = S (length l).
Proof.
  induction l as [|y ys IH]; simpl; [reflexivity|].
  destruct (Rlt_dec _ _); simpl; [rewrite IH|]; reflexivity.
Qed.

Lemma length_sort_desc (l : list result) : length (sort_desc l) = length l.
Proof. induction l; simpl; [reflexivity|]. rewrite length_insert_desc, IHl. reflexivity. Qed.

(** C8 (counterexample): there is no cap at 100; 101 sessions with limit
    101 give 101 results. *)
Lemma C8_no_hard_cap_counterexample :
  exists rs, search_outcome env0 "auth" (IndexOk index_101) None None 101 true "simple" = Ok rs /\
             length rs = 101%nat.
Proof.
  assert (Hl : length (sort_desc (simple_scored "auth" (repeat sess_auth 101))) = 101%nat)
    by (rewrite length_sort_desc; unfold simple_scored; rewrite length_map, repeat_length;
        reflexivity).
  exists (firstn 101 (sort_desc (simple_scored "auth" (repeat sess_auth 101)))).
  split; [reflexivity|]. rewrite firstn_all2; [exact Hl|lia].
Qed.

(** C8 (amended): for a limit [k >= 0] the result list has at most [k]
    elements (the default call passes [limit = 5]); a larger limit is not
    capped at 100. *)
Theorem C8_limit_bound (env : search_env) (query : string) (idxf : index_file)
  (session_filter : option string) (topics_filter : option (list string)) (limit : Z)
  (use_bm25 : bool) (search_mode : string) (rs : list result) :
  (0 <= limit)%Z ->
  search_outcome env query idxf session_filter topics_filter limit use_bm25 search_mode = Ok rs ->
  (length rs <= Z.to_nat limit)%nat.
Proof.
  intros Hk. unfold search_outcome.
  destruct idxf as [| |idx]; intros H; try discriminate.
  - injection H as <-. simpl. lia.
  - destruct (score_sessions _ _ _ _ _); try discriminate; injection H as <-;
      [|simpl; lia].
    unfold py_slice_to. apply Z.leb_le in Hk. rewrite Hk. apply firstn_le_length.
Qed.

Lemma C8_limit_bound_witness :
  search_outcome env0 "auth" (IndexOk index_rank) None None 2 true "simple" =
    Ok [simple_row "auth" sess_old; simple_row "auth" sess_new] /\
  (length [simple_row "auth" sess_old; simple_row "auth" sess_new] <= Z.to_nat 2)%nat.
Proof.
  assert (H : search_outcome env0 "auth" (IndexOk index_rank) None None 2 true "simple" =
              Ok [simple_row "auth" sess_old; simple_row "auth" sess_new])
    by exact (rank_outcome 2).
  split; [exact H|].
  apply (C8_limit_bound env0 "auth" (IndexOk index_rank) None None 2 true "simple").
  - lia.
  - exact H.
Defined.

(** ** C6: the score range *)

(** C6 (failing input): a capture time 30 days in the future gives the
    temporal score [exp 1]; an empty query in bm25 mode returns that
    temporal score as the relevance, which is above 1. *)
Theorem C6_future_stamp_score_above_one :
  exists rs r,
    search_outcome env0 "" (IndexOk index_future) None None 5 true "bm25" = Ok rs /\
    In r rs /\ r.(r_relevance) = exp 1 /\ (1 < r.(r_relevance))%R.
Proof.
  set (r := mk_result sess_future (temporal 0 sess_future) (Some 0%R) None
                      (Some (temporal 0 sess_future)) "bm25").
  assert (Hr : r.(r_relevance) = exp 1).
  { simpl. unfold temporal, calculate_temporal_score. simpl. f_equal. field. }
  exists [r], r. split; [reflexivity|]. split; [left; reflexivity|]. split; [exact Hr|].
  rewrite Hr. pose proof (exp_ineq1 1 R1_neq_R0). lra.
Qed.

(** * Further properties of the search pipeline *)

(** ** Arithmetic helpers *)

Lemma div_unit (x y : R) : (0 <= x)%R -> (x <= y)%R -> (0 < y)%R -> in_unit (x / y).
Proof.
  intros H0 Hxy Hy. split.
  - unfold Rdiv. apply Rmult_le_pos; [lra|]. left. apply Rinv_0_lt_compat. lra.
  - apply (Rmult_le_reg_r y); [lra|]. replace (x / y * y)%R with x by (field; lra). lra.
Qed.

Lemma count_true_le {A : Type} (p : A -> bool) (l : list A) :
  (count_true p l <= length l)%nat.
Proof.
  unfold count_true. induction l as [|x xs IH]; simpl; [lia|].
  destruct (p x); simpl; lia.
Qed.

Lemma existsb_length {A : Type} (p : A -> bool) (l : list A) :
  existsb p l = true -> (0 < length l)%nat.
Proof. destruct l; simpl; [discriminate|lia]. Qed.

(** One weighted field of [simple_relevance_score]. *)
Lemma part_unit {A : Type} (p : A -> bool) (l : list A) (w : R) :
  (0 <= w)%R ->
  (0 <= (if existsb p l then INR (count_true p l) / INR (length l) * w else 0) <= w)%R.
Proof.
  intros Hw. destruct (existsb p l) eqn:He; [|lra].
  pose proof (existsb_length p l He) as Hl.
  assert (Hu : in_unit (INR (count_true p l) / INR (length l))).
  { apply div_unit; [apply pos_INR|apply le_INR, count_true_le|apply lt_0_INR; exact Hl]. }
  destruct Hu as [Hu0 Hu1]. split.
  - apply Rmult_le_pos; assumption.
  - replace w with (1 * w)%R at 2 by ring. apply Rmult_le_compat_r; assumption.
Qed.

(** ** The simple scorer stays in [0, 1] *)

Lemma simple_relevance_score_in_unit (query : string) (s : session) :
  in_unit (simple_relevance_score query s).
Proof.
  unfold simple_relevance_score. cbv zeta.
  set (qt := nodup_str (tokenize_query query)).
  pose proof (part_unit (fun t => str_in t (str_lower (s_summary s))) qt 3 ltac:(lra)).
  pose proof (part_unit (fun t => existsb (fun topic => str_in t topic)
                                          (map str_lower (s_topics s))) qt 2 ltac:(lra)).
  pose proof (part_unit (fun t => existsb (fun f => str_in t f)
                                          (map str_lower (s_files s))) qt 1 ltac:(lra)).
  destruct (existsb (fun t => existsb (fun b => str_in t b) (map str_lower (s_beads s))) qt);
    unfold in_unit; lra.
Qed.

(** X1: for every query and session, [simple_relevance_score] lies in
    [0, 1]: each field contributes at most its weight (3, 2, 1 and 1) and
    the sum is divided by 7. *)
Theorem X1_simple_relevance_score_unit (query : string) (s : session) :
  (0 <= simple_relevance_score query s <= 1)%R.
Proof. exact (simple_relevance_score_in_unit query s). Qed.

(** ** Every mode keeps its scores in [0, 1] *)

Local Open Scope R_scope.

Lemma exp_nonpos_unit (x : R) : (x <= 0)%R -> in_unit (exp x).
Proof.
  intros Hx. split; [left; apply exp_pos|].
  destruct (Req_dec x 0) as [->|Hne]; [rewrite exp_0; lra|].
  left. rewrite <- exp_0. apply exp_increasing. lra.
Qed.

Lemma temporal_unit (now : R) (s : session) : no_future now s -> in_unit (temporal now s).
Proof.
  unfold no_future, temporal, calculate_temporal_score.
  destruct (s_stamp s) as [| |t]; intros H; try (unfold in_unit; lra).
  apply exp_nonpos_unit. lra.
Qed.

Lemma fold_Rmax_ge (xs : list R) (x : R) :
  (x <= fold_left Rmax xs x)%R /\ (forall y, In y xs -> y <= fold_left Rmax xs x)%R.
Proof.
  revert x; induction xs as [|z zs IH]; intros x; simpl; [split; [lra|tauto]|].
  destruct (IH (Rmax x z)) as [H1 H2]. split.
  - eapply Rle_trans; [apply Rmax_l|exact H1].
  - intros y [<-|Hy]; [eapply Rle_trans; [apply Rmax_r|exact H1]|apply H2, Hy].
Qed.

Lemma nth_nonneg (l : list R) (i : nat) : Forall (Rle 0) l -> (0 <= nth i l 0)%R.
Proof.
  intros H. destruct (Nat.lt_ge_cases i (length l)) as [Hi|Hi].
  - rewrite Forall_forall in H. apply H, nth_In, Hi.
  - rewrite nth_overflow by exact Hi. lra.
Qed.

Lemma nth_le_list_max (l : list R) (i : nat) :
  Forall (Rle 0) l -> (nth i l 0 <= list_max l)%R /\ (0 <= list_max l)%R.
Proof.
  intros H. destruct l as [|x xs]; [destruct i; simpl; lra|].
  inversion H as [|? ? Hx Hxs]; subst.
  destruct (fold_Rmax_ge xs x) as [H1 H2]. unfold list_max. split; [|lra].
  destruct i as [|i]; simpl; [exact H1|].
  destruct (Nat.lt_ge_cases i (length xs)) as [Hi|Hi].
  - apply H2, nth_In, Hi.
  - rewrite nth_overflow by exact Hi. lra.
Qed.

(** The normalised BM25 part [score / max_bm25] lies in [0, 1]. *)
Lemma norm_unit (scores : list R) (i : nat) :
  Forall (Rle 0) scores ->
  in_unit (nth i scores 0 /
           (if Rlt_dec 0 (list_max scores) then list_max scores else 1)).
Proof.
  intros H. pose proof (nth_nonneg scores i H) as Hn.
  destruct (nth_le_list_max scores i H) as [Hle Hm].
  destruct (Rlt_dec 0 (list_max scores)) as [Hp|Hp].
  - apply div_unit; assumption.
  - apply div_unit; lra.
Qed.

Lemma Forall_mapi_from {A B : Type} (P : B -> Prop) (f : nat -> A -> B) (l : list A) (k : nat) :
  (forall i x, In x l -> P (f i x)) -> Forall P (mapi_from f k l).
Proof.
  revert k; induction l as [|x xs IH]; intros k H; simpl; constructor.
  - apply H. left. reflexivity.
  - apply IH. intros i y Hy. apply H. right. exact Hy.
Qed.

Lemma Forall_subseq {A : Type} (P : A -> Prop) (l1 l2 : list A) :
  subseq l1 l2 -> Forall P l2 -> Forall P l1.
Proof.
  intros Hs H. rewrite Forall_forall in *. intros x Hx. apply H.
  exact (subseq_in x l1 l2 Hs Hx).
Qed.

Lemma bm25_search_unit (env : search_env) (query : string) (idx : index) (rs : list result) :
  scorer_nonneg env -> Forall (no_future env.(se_now)) idx.(i_sessions) ->
  bm25_search env query idx = Ok rs -> Forall row_unit rs.
Proof.
  intros Hsc Hnf.
  assert (Htemp : Forall row_unit (temporal_only (se_now env) (i_sessions idx))).
  { unfold temporal_only. apply Forall_map. eapply Forall_impl; [|exact Hnf].
    intros s Hs. split; simpl; [apply temporal_unit, Hs|unfold in_unit; lra]. }
  assert (Hzero : Forall row_unit
            (map (fun s => mk_result s 0 (Some 0%R) None (Some 0.5%R) "bm25") (i_sessions idx))).
  { apply Forall_map, Forall_forall. intros s _. split; simpl; unfold in_unit; lra. }
  unfold bm25_search.
  destruct (i_bm25 idx) as [[|kv d]|];
    [intros H; injection H as <-; exact Hzero| |intros H; injection H as <-; exact Hzero].
  destruct (i_sessions idx) as [|s0 ss] eqn:Hss; [intros H; injection H as <-; constructor|].
  rewrite <- Hss in *.
  destruct (tokenize_query query) as [|t0 ts]; [intros H; injection H as <-; exact Htemp|].
  destruct (forallb _ _); [intros H; injection H as <-; exact Htemp|].
  destruct (se_bm25 env _ _ _) as [scores|e] eqn:Hb.
  - intros H; injection H as <-. apply Forall_mapi_from. intros i s Hs.
    rewrite Forall_forall in Hnf. pose proof (temporal_unit _ _ (Hnf s Hs)) as [T0 T1].
    pose proof (norm_unit scores i (Hsc _ _ _ _ Hb)) as [N0 N1].
    split; simpl; unfold in_unit; lra.
  - destruct (is_value_or_index_error e); [|discriminate].
    intros H; injection H as <-; exact Htemp.
Qed.

Lemma dot_self_nonneg (u : list R) : 0 <= dot u u.
Proof.
  induction u as [|x u IH]; simpl; [lra|].
  pose proof (Rle_0_sqr x) as H. unfold Rsqr in H. lra.
Qed.

(** [2 u.v <= u.u + v.v] and [-(u.u + v.v) <= 2 u.v]. *)
Lemma dot_am_gm (u v : list R) :
  2 * dot u v <= dot u u + dot v v /\ - (dot u u + dot v v) <= 2 * dot u v.
Proof.
  revert v; induction u as [|x u IH]; intros [|y v]; simpl.
  - lra.
  - pose proof (dot_self_nonneg (y :: v)) as H. simpl in H. lra.
  - pose proof (dot_self_nonneg (x :: u)) as H. simpl in H. lra.
  - destruct (IH v) as [H1 H2].
    pose proof (Rle_0_sqr (x - y)) as Hm. pose proof (Rle_0_sqr (x + y)) as Hp.
    unfold Rsqr in Hm, Hp.
    replace ((x - y) * (x - y)) with (x * x + y * y - 2 * (x * y)) in Hm by ring.
    replace ((x + y) * (x + y)) with (x * x + y * y + 2 * (x * y)) in Hp by ring.
    lra.
Qed.

Lemma dot_scaled (u : list R) (c : R) :
  dot (map (fun x => x / c) u) (map (fun x => x / c) u) = dot u u * (/ c * / c).
Proof. induction u as [|x u IH]; simpl; [ring|]. rewrite IH. unfold Rdiv. ring. Qed.

(** The normalised query vector has squared norm at most 1. *)
Lemma query_norm_le_1 (q : list R) :
  dot (map (fun x => x / sqrt (dot q q)) q) (map (fun x => x / sqrt (dot q q)) q) <= 1.
Proof.
  rewrite dot_scaled. pose proof (dot_self_nonneg q) as H.
  destruct (Req_dec (dot q q) 0) as [H0|H0].
  - rewrite H0, sqrt_0, Rinv_0. lra.
  - assert (Hs : sqrt (dot q q) * sqrt (dot q q) = dot q q) by (apply sqrt_sqrt; lra).
    assert (Hn : sqrt (dot q q) <> 0) by (intros E; rewrite E in Hs; lra).
    replace (dot q q * (/ sqrt (dot q q) * / sqrt (dot q q)))
      with (dot q q / (sqrt (dot q q) * sqrt (dot q q))) by (field; exact Hn).
    rewrite Hs. unfold Rdiv. rewrite Rinv_r by exact H0. lra.
Qed.

Lemma semantic_search_unit (de : dense_env) (query : string) (idx : index) (ss : list R) :
  unit_rows de -> semantic_search de query idx = Some ss -> Forall in_unit ss.
Proof.
  unfold unit_rows, semantic_search.
  destruct (de_available de), (dict_truthy (i_embedding idx)); simpl; try discriminate.
  destruct (de_embeddings de) as [emb|]; [|discriminate]. intros Hrows.
  destruct (Nat.eqb _ _); simpl; [|discriminate].
  destruct (de_model_ok de); simpl; [|discriminate].
  destruct (de_encode de query) as [q|]; [|discriminate].
  destruct (forallb _ _); simpl; [|discriminate].
  intros H. injection H as <-. rewrite map_map. apply Forall_map.
  eapply Forall_impl; [|exact Hrows]. intros row Hrow.
  pose proof (query_norm_le_1 q) as Hq.
  destruct (dot_am_gm row (map (fun x => x / sqrt (dot q q)) q)) as [H1 H2].
  split; lra.
Qed.

Lemma nth_unit (l : list R) (i : nat) : Forall in_unit l -> in_unit (nth i l 0).
Proof.
  intros H. destruct (Nat.lt_ge_cases i (length l)) as [Hi|Hi].
  - rewrite Forall_forall in H. apply H, nth_In, Hi.
  - rewrite nth_overflow by exact Hi. unfold in_unit. lra.
Qed.

Lemma hybrid_search_unit (env : search_env) (query : string) (idx : index) (rs : list result) :
  scorer_nonneg env -> Forall (no_future env.(se_now)) idx.(i_sessions) ->
  unit_rows env.(se_dense) ->
  hybrid_search env query idx = Ok rs -> Forall (fun r => in_unit r.(r_relevance)) rs.
Proof.
  intros Hsc Hnf Hrows. unfold hybrid_search.
  destruct (bm25_search env query idx) as [b|e] eqn:Hb; [|discriminate].
  pose proof (bm25_search_unit _ _ _ _ Hsc Hnf Hb) as Hbu. rewrite Forall_forall in Hbu.
  assert (Hsem : forall ss, match semantic_search (se_dense env) query idx with
                            | Some ss => if Nat.eqb (length ss) (length (i_sessions idx))
                                         then Some ss else None
                            | None => None end = Some ss -> Forall in_unit ss).
  { intros ss. destruct (semantic_search _ _ _) as [ss'|] eqn:Es; [|discriminate].
    destruct (Nat.eqb _ _); [|discriminate]. intros E; injection E as <-.
    exact (semantic_search_unit _ _ _ _ Hrows Es). }
  intros H; injection H as <-. unfold mapi. apply Forall_mapi_from. intros i s _.
  destruct (nth_error b i) as [r|] eqn:Hr.
  - destruct (Hbu r (nth_error_In _ _ Hr)) as [Hrel Hb25].
    destruct (match semantic_search (se_dense env) query idx with
              | Some ss => if Nat.eqb (length ss) (length (i_sessions idx)) then Some ss else None
              | None => None end) as [ss|] eqn:Es.
    + pose proof (Hsem ss eq_refl) as Hss.
      destruct (nth_error ss i) as [x|] eqn:Hx; simpl; [|exact Hrel].
      rewrite Forall_forall in Hss. pose proof (Hss x (nth_error_In _ _ Hx)) as [X0 X1].
      destruct (r_bm25 r) as [bb|]; [destruct Hb25 as [B0 B1]|]; unfold in_unit; lra.
    + exact Hrel.
  - destruct (match semantic_search (se_dense env) query idx with
              | Some ss => if Nat.eqb (length ss) (length (i_sessions idx)) then Some ss else None
              | None => None end) as [ss|] eqn:Es.
    + pose proof (Hsem ss eq_refl) as Hss.
      destruct (nth_error ss i) as [x|] eqn:Hx; simpl; [|unfold in_unit; lra].
      rewrite Forall_forall in Hss. pose proof (Hss x (nth_error_In _ _ Hx)) as [X0 X1].
      unfold in_unit; lra.
    + simpl. unfold in_unit; lra.
Qed.

Lemma score_sessions_unit (env : search_env) (query : string) (fidx : index)
  (use_bm25 : bool) (search_mode m : string) (scored : list result) :
  scorer_nonneg env -> Forall (no_future env.(se_now)) fidx.(i_sessions) ->
  unit_rows env.(se_dense) ->
  score_sessions env query fidx use_bm25 search_mode = Scored m scored ->
  Forall (fun r => in_unit r.(r_relevance)) scored.
Proof.
  intros Hsc Hnf Hrows.
  assert (Hsimple : Forall (fun r => in_unit r.(r_relevance))
                           (simple_scored query (i_sessions fidx))).
  { unfold simple_scored. apply Forall_map, Forall_forall. intros s _.
    apply simple_relevance_score_in_unit. }
  assert (Hbm : forall m', of_res m' (bm25_search env query fidx) = Scored m scored ->
                Forall (fun r => in_unit r.(r_relevance)) scored).
  { intros m' H. apply of_res_scored in H.
    eapply Forall_impl; [|exact (bm25_search_unit _ _ _ _ Hsc Hnf H)].
    intros r [Hr _]. exact Hr. }
  assert (Hhy : of_res "hybrid" (hybrid_search env query fidx) = Scored m scored ->
                Forall (fun r => in_unit r.(r_relevance)) scored).
  { intros H. apply of_res_scored in H. exact (hybrid_search_unit _ _ _ _ Hsc Hnf Hrows H). }
  unfold score_sessions.
  destruct (String.eqb search_mode "simple"); [intros H; injection H as _ <-; exact Hsimple|].
  destruct (String.eqb search_mode "semantic").
  { destruct (semantic_search _ _ _) as [ss|] eqn:Es; [|discriminate].
    intros H; injection H as _ <-. unfold semantic_scored, mapi.
    apply Forall_mapi_from. intros i s _. simpl. apply nth_unit.
    exact (semantic_search_unit _ _ _ _ Hrows Es). }
  destruct (String.eqb search_mode "hybrid" || String.eqb search_mode "auto").
  { destruct (_ || _); [exact Hhy|exact (Hbm "bm25")]. }
  destruct (String.eqb search_mode "bm25");
    (destruct (use_bm25 && dict_truthy (i_bm25 fidx));
      [exact (Hbm "bm25")|intros H; injection H as _ <-; exact Hsimple]).
Qed.

(** X2: if no stored session has a capture time after the current
    instant, the BM25 scorer returns non-negative scores and the stored
    embedding rows have unit norm, then in every mode every returned
    relevance score lies in [0, 1]. *)
Theorem X2_search_scores_unit (env : search_env) (query : string) (idx : index)
  (session_filter : option string) (topics_filter : option (list string)) (limit : Z)
  (use_bm25 : bool) (search_mode : string) (rs : list result) :
  Forall (no_future env.(se_now)) idx.(i_sessions) ->
  scorer_nonneg env ->
  unit_rows env.(se_dense) ->
  search_outcome env query (IndexOk idx) session_filter topics_filter limit use_bm25
    search_mode = Ok rs ->
  Forall (fun r => (0 <= r.(r_relevance) <= 1)%R) rs.
Proof.
  intros Hnf Hsc Hrows. unfold search_outcome.
  destruct (score_sessions _ _ _ _ _) as [m scored| |e] eqn:Hs; intros H;
    try discriminate; injection H as <-; [|constructor].
  pose proof (score_sessions_unit env query
                (mk_index (apply_filters (i_sessions idx) session_filter topics_filter)
                          (i_bm25 idx) (i_embedding idx)) _ _ _ _ Hsc
                (Forall_subseq _ _ _ (apply_filters_subseq (i_sessions idx) session_filter
                                        topics_filter) Hnf) Hrows Hs) as Hu.
  apply Forall_forall. intros r Hr. apply in_py_slice_to in Hr. rewrite in_sort_desc in Hr.
  rewrite Forall_forall in Hu. exact (Hu r Hr).
Qed.

(** Witness for X2 in hybrid mode: captures on days 10 and 4 at day 10,
    a BM25 scorer giving 1, two unit embedding rows. *)
Lemma X2_search_scores_unit_witness :
  Forall (no_future 10%R) index_unit.(i_sessions) /\ scorer_nonneg env_unit /\
  unit_rows dense_unit /\
  exists rs, search_outcome env_unit "auth" (IndexOk index_unit) None None 5 true "hybrid" = Ok rs /\
    length rs = 2%nat /\ Forall (fun r => (0 <= r.(r_relevance) <= 1)%R) rs.
Proof.
  assert (Hnf : Forall (no_future 10%R) index_unit.(i_sessions))
    by (repeat constructor; unfold no_future; simpl; lra).
  assert (Hsc : scorer_nonneg env_unit).
  { intros d corpus q scores H. injection H as <-. apply Forall_forall.
    intros x Hx. apply in_map_iff in Hx. destruct Hx as [_ [<- _]]. lra. }
  assert (Hrows : unit_rows dense_unit) by (repeat constructor; simpl; ring).
  split; [exact Hnf|]. split; [exact Hsc|]. split; [exact Hrows|].
  assert (Hs : exists m scored,
            score_sessions env_unit "auth"
              (mk_index (apply_filters (i_sessions index_unit) None None)
                        (i_bm25 index_unit) (i_embedding index_unit)) true "hybrid" =
            Scored m scored) by (do 2 eexists; reflexivity).
  destruct Hs as [m [scored Hs]].
  assert (Ho : search_outcome env_unit "auth" (IndexOk index_unit) None None 5 true "hybrid" =
               Ok (py_slice_to 5 (sort_desc scored)))
    by (unfold search_outcome; rewrite Hs; reflexivity).
  exists (py_slice_to 5 (sort_desc scored)). split; [exact Ho|]. split.
  - change (py_slice_to 5 (sort_desc scored)) with (firstn 5 (sort_desc scored)).
    rewrite length_firstn, length_sort_desc, <- (length_map r_session scored),
      (score_sessions_sessions _ _ _ _ _ _ _ Hs).
    reflexivity.
  - exact (X2_search_scores_unit env_unit "auth" index_unit None None 5 true "hybrid" _
             Hnf Hsc Hrows Ho).
Defined.

Local Close Scope R_scope.

(** ** How many results come back *)

Lemma length_score_sessions (env : search_env) (query : string) (fidx : index)
  (use_bm25 : bool) (search_mode m : string) (scored : list result) :
  score_sessions env query fidx use_bm25 search_mode = Scored m scored ->
  length scored = length fidx.(i_sessions).
Proof.
  intros H. rewrite <- (score_sessions_sessions _ _ _ _ _ _ _ H). symmetry. apply length_map.
Qed.

Lemma score_sessions_available (env : search_env) (query : string) (fidx : index)
  (use_bm25 : bool) (search_mode : string) :
  String.eqb search_mode "semantic" = false ->
  score_sessions env query fidx use_bm25 search_mode <> SemanticUnavailable.
Proof.
  intros Hm. unfold score_sessions. rewrite Hm.
  repeat match goal with |- context [if ?b then _ else _] => destruct b end;
    unfold of_res;
    repeat match goal with |- context [match ?e with Ok _ => _ | Err _ => _ end] =>
      destruct e end; discriminate.
Qed.

Lemma length_py_slice_to {A : Type} (k : Z) (l : list A) :
  length (py_slice_to k l) =
  if (0 <=? k)%Z then Nat.min (Z.to_nat k) (length l) else length l - Z.to_nat (- k).
Proof.
  unfold py_slice_to. destruct (0 <=? k)%Z; rewrite length_firstn; lia.
Qed.

(** X3: outside semantic mode, a successful search over a loaded index
    returns [min(limit, n)] results for a limit [>= 0], where [n] is the
    number of sessions left by the filters; a negative limit [-j] returns
    all but the last [j] of them, as the slice [scored[:limit]] does. *)
Theorem X3_result_count (env : search_env) (query : string) (idx : index)
  (session_filter : option string) (topics_filter : option (list string)) (limit : Z)
  (use_bm25 : bool) (search_mode : string) (rs : list result) :
  String.eqb search_mode "semantic" = false ->
  search_outcome env query (IndexOk idx) session_filter topics_filter limit use_bm25
    search_mode = Ok rs ->
  let n := length (apply_filters idx.(i_sessions) session_filter topics_filter) in
  length rs = if (0 <=? limit)%Z then Nat.min (Z.to_nat limit) n else n - Z.to_nat (- limit).
Proof.
  intros Hm. unfold search_outcome.
  destruct (score_sessions _ _ _ _ _) as [m scored| |e] eqn:Hs; intros H.
  - injection H as <-. cbv zeta. rewrite length_py_slice_to, length_sort_desc.
    rewrite (length_score_sessions _ _ _ _ _ _ _ Hs). reflexivity.
  - exfalso. exact (score_sessions_available _ _ _ _ _ Hm Hs).
  - discriminate.
Qed.

Lemma X3_result_count_witness :
  search_outcome env0 "auth" (IndexOk index_rank) None None (-1) true "simple" =
    Ok [simple_row "auth" sess_old; simple_row "auth" sess_new] /\
  length [simple_row "auth" sess_old; simple_row "auth" sess_new] =
    length [sess_deploy; sess_old; sess_new] - 1.
Proof.
  assert (H : search_outcome env0 "auth" (IndexOk index_rank) None None (-1) true "simple" =
              Ok [simple_row "auth" sess_old; simple_row "auth" sess_new])
    by exact (rank_outcome (-1)).
  split; [exact H|].
  exact (X3_result_count env0 "auth" index_rank None None (-1) true "simple" _ eq_refl H).
Defined.

(** ** The session and topic filters *)

Lemma existsb_eqb_in (x : string) (l : list string) : existsb (String.eqb x) l = true <-> In x l.
Proof.
  rewrite existsb_exists. split.
  - intros [y [Hy E]]. apply String.eqb_eq in E. subst. exact Hy.
  - intros H. exists x. split; [exact H|apply String.eqb_refl].
Qed.

(** X4: a session is kept by [apply_filters] exactly when it is in the
    index, its id contains the session filter (an empty filter keeps
    everything) and, for a non-empty topic filter, one of the requested
    topics equals one of its topics up to case; the kept sessions keep
    their stored order. *)
Theorem X4_apply_filters_spec (sessions : list session) (session_filter : option string)
  (topics_filter : option (list string)) :
  (forall s, In s (apply_filters sessions session_filter topics_filter) <->
             In s sessions /\ passes_filters s session_filter topics_filter) /\
  subseq (apply_filters sessions session_filter topics_filter) sessions.
Proof.
  split; [|apply apply_filters_subseq].
  intros s. unfold apply_filters, passes_filters.
  assert (H1 : In s (match session_filter with
                    | Some f => if String.eqb f "" then sessions
                                else filter (fun s => str_in f s.(s_id)) sessions
                    | None => sessions end) <->
               In s sessions /\ match session_filter with
                                | Some f => f = "" \/ str_in f s.(s_id) = true
                                | None => True end).
  { destruct session_filter as [f|]; [|tauto].
    destruct (String.eqb_spec f "") as [->|Hne]; [tauto|].
    rewrite filter_In. split; [tauto|]. intros [Hin [E|E]]; [contradiction|tauto]. }
  destruct topics_filter as [[|t ts]|]; try (rewrite H1; tauto).
  rewrite filter_In, H1, existsb_exists. split.
  - intros [[Hin Hsf] [x [Hx Ex]]]. apply in_map_iff in Hx. destruct Hx as [topic [<- Ht]].
    apply existsb_eqb_in in Ex. split; [exact Hin|]. split; [exact Hsf|].
    exists topic. split; assumption.
  - intros [Hin [Hsf [topic [Ht Ex]]]]. split; [split; assumption|].
    exists (str_lower topic). split; [apply in_map, Ht|]. apply existsb_eqb_in, Ex.
Qed.

(** ** Query tokens *)

Lemma ascii_lower_not_upper (c : ascii) : ~ is_upper (ascii_lower c).
Proof.
  unfold ascii_lower, is_upper.
  destruct (Nat.leb_spec 65 (nat_of_ascii c)); destruct (Nat.leb_spec (nat_of_ascii c) 90);
    simpl; try lia.
  rewrite nat_ascii_embedding by lia. lia.
Qed.

Lemma ascii_lower_idem (c : ascii) : ascii_lower (ascii_lower c) = ascii_lower c.
Proof.
  pose proof (ascii_lower_not_upper c) as H. unfold is_upper in H.
  unfold ascii_lower at 1.
  destruct (Nat.leb_spec 65 (nat_of_ascii (ascii_lower c)));
    destruct (Nat.leb_spec (nat_of_ascii (ascii_lower c)) 90); simpl; try reflexivity; lia.
Qed.

Lemma str_lower_idem (s : string) : str_lower (str_lower s) = str_lower s.
Proof. induction s; simpl; [reflexivity|]. rewrite ascii_lower_idem, IHs. reflexivity. Qed.

Lemma list_ascii_of_string_app1 (s : string) (c : ascii) :
  list_ascii_of_string (s ++ String c EmptyString) = list_ascii_of_string s ++ [c].
Proof. induction s; simpl; [reflexivity|]. rewrite IHs. reflexivity. Qed.

Lemma findall_words_spec (s cur : string) :
  Forall (fun c => ~ is_upper c) (list_ascii_of_string s) ->
  Forall (fun c => is_word_char c = true /\ ~ is_upper c) (list_ascii_of_string cur) ->
  forall tok, In tok (findall_words s cur) ->
  tok <> EmptyString /\
  Forall (fun c => is_word_char c = true /\ ~ is_upper c) (list_ascii_of_string tok).
Proof.
  revert cur; induction s as [|c r IH]; intros cur Hs Hcur tok Htok; simpl in *.
  - destruct (String.eqb_spec cur "") as [->|Hne]; [contradiction|].
    destruct Htok as [<-|[]]. split; assumption.
  - inversion Hs as [|? ? Hc Hr]; subst.
    destruct (is_word_char c) eqn:Hw.
    + apply (IH (cur ++ String c EmptyString)%string Hr); [|exact Htok].
      rewrite list_ascii_of_string_app1. apply Forall_app. split; [exact Hcur|].
      constructor; [split; assumption|constructor].
    + destruct (String.eqb_spec cur "") as [->|Hne].
      * exact (IH "" Hr (Forall_nil _) tok Htok).
      * destruct Htok as [<-|Htok]; [split; assumption|].
        exact (IH "" Hr (Forall_nil _) tok Htok).
Qed.

Lemma str_lower_lower (s : string) :
  Forall (fun c => ~ is_upper c) (list_ascii_of_string (str_lower s)).
Proof. induction s; simpl; constructor; [apply ascii_lower_not_upper|exact IHs]. Qed.

(** X5: every token of [tokenize_query] is a non-empty run of word
    characters ([\w]: letters, digits, underscore) with no upper-case
    letter, and tokenizing is insensitive to case: a query and its
    lower-cased form give the same tokens. *)
Theorem X5_tokenize_query_tokens (query : string) :
  (forall tok, In tok (tokenize_query query) ->
     tok <> EmptyString /\
     Forall (fun c => is_word_char c = true /\ ~ is_upper c) (list_ascii_of_string tok)) /\
  tokenize_query (str_lower query) = tokenize_query query.
Proof.
  split.
  - intros tok Htok. exact (findall_words_spec _ "" (str_lower_lower query) (Forall_nil _) tok Htok).
  - unfold tokenize_query. rewrite str_lower_idem. reflexivity.
Qed.

(** * Further properties of the telemetry collector *)

Lemma events_get_notin (k : string) (m : list (string * dict)) :
  ~ In k (map fst m) -> events_get k m = None.
Proof.
  induction m as [|[k' e] rest IH]; simpl; intros Hn; [reflexivity|].
  destruct (String.eqb_spec k k') as [->|_]; [exfalso; apply Hn; left; reflexivity|].
  apply IH. intros Hi. apply Hn. right. exact Hi.
Qed.

Lemma events_get_del_nodup (k : string) (m : list (string * dict)) :
  NoDup (map fst m) -> events_get k (events_del k m) = None.
Proof.
  induction m as [|[k' e] rest IH]; simpl; intros Hnd; [reflexivity|].
  inversion Hnd as [|? ? Hn Hnd']; subst.
  destruct (String.eqb_spec k k') as [->|Hne].
  - apply events_get_notin. exact Hn.
  - simpl. apply String.eqb_neq in Hne. rewrite Hne. apply IH. exact Hnd'.
Qed.

Lemma events_get_set_neq (k k' : string) (e : dict) m :
  k <> k' -> events_get k (events_set k' e m) = events_get k m.
Proof.
  intros Hne. induction m as [|[k'' e'] rest IH]; simpl.
  - apply String.eqb_neq in Hne. rewrite Hne. reflexivity.
  - destruct (String.eqb_spec k' k'') as [->|_]; simpl.
    + apply String.eqb_neq in Hne. rewrite Hne. reflexivity.
    + destruct (String.eqb k k''); [reflexivity|exact IH].
Qed.

Lemma events_set_set (k : string) (e1 e2 : dict) m :
  events_set k e2 (events_set k e1 m) = events_set k e2 m.
Proof.
  induction m as [|[k' e'] rest IH]; simpl.
  - rewrite String.eqb_refl. reflexivity.
  - destruct (String.eqb_spec k k') as [->|Hne]; simpl.
    + rewrite String.eqb_refl. reflexivity.
    + apply String.eqb_neq in Hne. rewrite Hne, IH. reflexivity.
Qed.

Lemma events_del_set_fresh (k : string) (e : dict) m :
  events_get k m = None -> events_del k (events_set k e m) = m.
Proof.
  induction m as [|[k' e'] rest IH]; simpl; intros Hg.
  - rewrite String.eqb_refl. reflexivity.
  - destruct (String.eqb_spec k k') as [_|Hne]; [discriminate|].
    simpl. apply String.eqb_neq in Hne. rewrite Hne, IH by exact Hg. reflexivity.
Qed.

Lemma dict_has_set (k k' : string) (v : json) (d : dict) :
  dict_has k d = true -> dict_has k (dict_set k' v d) = true.
Proof.
  unfold dict_has. intros Hk.
  destruct (String.eqb_spec k k') as [->|Hne].
  - rewrite dict_get_set_eq. reflexivity.
  - rewrite dict_get_set_neq by exact Hne. exact Hk.
Qed.

Lemma deep_merge_has (k : string) (source target : dict) :
  dict_has k target = true -> dict_has k (deep_merge target source) = true.
Proof.
  unfold deep_merge. revert target.
  induction source as [|[k' v] rest IH]; intros target Hk; simpl in *; [exact Hk|].
  apply IH.
  destruct (dict_get k' target) as [[]|]; try destruct v; apply dict_has_set; exact Hk.
Qed.

Lemma dict_get_notin (k : string) (d : dict) :
  ~ In k (map fst d) -> dict_get k d = None.
Proof.
  induction d as [|[k' v] rest IH]; simpl; intros Hn; [reflexivity|].
  destruct (String.eqb_spec k k') as [->|_]; [exfalso; apply Hn; left; reflexivity|].
  apply IH. intros Hi. apply Hn. right. exact Hi.
Qed.

(** With distinct keys in [extra], [{**base, **extra}] reads [extra] first. *)
Lemma dict_update_get (k : string) (base extra : dict) :
  NoDup (map fst extra) ->
  dict_get k (dict_update base extra) =
  match dict_get k extra with Some v => Some v | None => dict_get k base end.
Proof.
  unfold dict_update. revert base.
  induction extra as [|[k' v] rest IH]; intros base Hnd; simpl in *; [reflexivity|].
  inversion Hnd as [|? ? Hn Hnd']; subst.
  rewrite IH by exact Hnd'.
  destruct (String.eqb_spec k k') as [->|Hne].
  - rewrite (dict_get_notin k' rest Hn). apply dict_get_set_eq.
  - destruct (dict_get k rest); [reflexivity|]. apply dict_get_set_neq. exact Hne.
Qed.

Lemma map_fst_dict_set (k : string) (v : json) (d : dict) :
  dict_has k d = true -> map fst (dict_set k v d) = map fst d.
Proof.
  unfold dict_has. induction d as [|[k' v'] rest IH]; simpl; intros Hk; [discriminate|].
  destruct (String.eqb_spec k k') as [->|_]; simpl; [reflexivity|].
  rewrite IH by exact Hk. reflexivity.
Qed.

Lemma redact_query_keys (red : option (string -> string)) (ctx : dict) :
  map fst (redact_query red ctx) = map fst ctx.
Proof.
  unfold redact_query.
  destruct red as [r|]; [|reflexivity].
  destruct (dict_get "query" ctx) as [[]|] eqn:Hq; try reflexivity.
  - apply map_fst_dict_set. unfold dict_has. rewrite Hq. reflexivity.
  - destruct (dict_has "raw_query" d); [|reflexivity].
    destruct (dict_get "raw_query" d) as [[]|]; try reflexivity.
    apply map_fst_dict_set. unfold dict_has. rewrite Hq. reflexivity.
Qed.

(** X6: once [end_event] has logged an event and removed it from the
    in-flight map, a second [end_event] on the same id does nothing: an
    event is written at most once.  ([current_events] is a Python dict, so
    its keys are distinct.) *)
Theorem X6_end_event_once (st : collector) (eid : option string) (o o' : option dict) :
  NoDup (map fst st.(c_current)) ->
  end_event (end_event st eid o) eid o' = end_event st eid o.
Proof.
  intros Hnd. unfold end_event.
  destruct (c_enabled st) eqn:He; [|simpl; rewrite He; reflexivity].
  destruct eid as [s|]; [|simpl; rewrite He; reflexivity].
  unfold id_truthy. destruct (String.eqb s ""); [simpl; rewrite He; reflexivity|].
  destruct (events_get s (c_current st)) as [ev|] eqn:Hg; [|simpl; rewrite He, Hg; reflexivity].
  simpl. rewrite He, events_get_del_nodup by exact Hnd. reflexivity.
Qed.

Lemma X6_end_event_once_witness :
  let st := fst (start_event (fst (start_event collector_on "recall_triggered" []))
                             "feedback" []) in
  NoDup (map fst st.(c_current)) /\
  end_event (end_event st (Some "uuid-0") None) (Some "uuid-0") None =
  end_event st (Some "uuid-0") None.
Proof.
  assert (Hnd : NoDup ["uuid-0"; "uuid-1"])
    by (constructor; [intros [H|[]]; discriminate H|constructor; [intros []|constructor]]).
  simpl. split; [exact Hnd|].
  apply X6_end_event_once. exact Hnd.
Defined.

(** X7: the life cycle [start_event], [update_event], [end_event] with a
    non-empty outcome, on a fresh event id, writes exactly one record: the
    started event (reserved fields overridden by the redacted context),
    deep-merged with the update data, with [outcome] set; the in-flight map
    is left as it was before [start_event]. *)
Theorem X7_event_lifecycle (st : collector) (ty : string) (ctx data o : dict) :
  st.(c_enabled) = true ->
  events_get (uuid4_of st.(c_next)) st.(c_current) = None ->
  o <> [] ->
  let st1 := fst (start_event st ty ctx) in
  let eid := snd (start_event st ty ctx) in
  let st3 := end_event (update_event st1 eid data) eid (Some o) in
  st3.(c_current) = st.(c_current) /\
  st3.(c_log) = st.(c_log) ++
    [dict_set "outcome" (JObj o)
       (deep_merge (dict_update [("event_id", JStr (uuid4_of st.(c_next)));
                                 ("timestamp", JStr st.(c_clock));
                                 ("event_type", JStr ty)]
                                (redact_query st.(c_redactor) ctx)) data)].
Proof.
  intros He Hfresh Ho. unfold start_event. rewrite He. simpl.
  unfold update_event, id_truthy. simpl. rewrite ?He, ?uuid4_nonempty, events_get_set_eq.
  unfold end_event, with_current, id_truthy. simpl. rewrite ?He, ?uuid4_nonempty.
  simpl. rewrite events_get_set_eq. rewrite events_set_set.
  destruct o as [|kv o]; [exfalso; apply Ho; reflexivity|].
  simpl. rewrite events_del_set_fresh by exact Hfresh. split; reflexivity.
Qed.

Lemma X7_event_lifecycle_witness :
  let st1 := fst (start_event collector_on "search" []) in
  let eid := snd (start_event collector_on "search" []) in
  let st3 := end_event (update_event st1 eid [("results", JInt 3)]) eid
                       (Some [("success", JBool true)]) in
  st3.(c_current) = collector_on.(c_current) /\
  st3.(c_log) = collector_on.(c_log) ++
    [dict_set "outcome" (JObj [("success", JBool true)])
       (deep_merge (dict_update [("event_id", JStr (uuid4_of collector_on.(c_next)));
                                 ("timestamp", JStr collector_on.(c_clock));
                                 ("event_type", JStr "search")]
                                (redact_query collector_on.(c_redactor) [])) [("results", JInt 3)])].
Proof.
  apply (X7_event_lifecycle collector_on "search" [] [("results", JInt 3)]
                            [("success", JBool true)]);
    [reflexivity|reflexivity|discriminate].
Defined.

(** X8: [update_event] never removes a field of the event it updates,
    leaves the fields that [data] does not name unchanged, touches no other
    in-flight event and writes nothing to the log. *)
Theorem X8_update_event_frame (st : collector) (eid : string) (data ev ev' : dict) :
  events_get eid st.(c_current) = Some ev ->
  events_get eid (update_event st (Some eid) data).(c_current) = Some ev' ->
  (forall k, dict_has k ev = true -> dict_has k ev' = true) /\
  (forall k, dict_get k data = None -> dict_get k ev' = dict_get k ev) /\
  (forall k, k <> eid ->
     events_get k (update_event st (Some eid) data).(c_current) = events_get k st.(c_current)) /\
  (update_event st (Some eid) data).(c_log) = st.(c_log).
Proof.
  intros Hg Hg'. unfold update_event, id_truthy in *.
  destruct (c_enabled st); simpl in *;
    [|rewrite Hg in Hg'; injection Hg' as <-; repeat split; auto].
  destruct (String.eqb eid ""); simpl in *;
    [rewrite Hg in Hg'; injection Hg' as <-; repeat split; auto|].
  rewrite Hg in *. simpl in Hg'. rewrite events_get_set_eq in Hg'. injection Hg' as <-.
  repeat split.
  - intros k Hk. apply deep_merge_has. exact Hk.
  - intros k Hk. apply deep_merge_get_other. exact Hk.
  - intros k Hk. apply events_get_set_neq. exact Hk.
Qed.

Lemma X8_update_event_frame_witness :
  let st := fst (start_event collector_on "search" [("query", JStr "q")]) in
  let ev := dict_update [("event_id", JStr "uuid-0"); ("timestamp", JStr clock0);
                         ("event_type", JStr "search")] [("query", JStr "q")] in
  let ev' := deep_merge ev [("timing", JInt 5)] in
  events_get "uuid-0" st.(c_current) = Some ev /\
  ((forall k, dict_has k ev = true -> dict_has k ev' = true) /\
   (forall k, dict_get k [("timing", JInt 5)] = None -> dict_get k ev' = dict_get k ev) /\
   (forall k, k <> "uuid-0" ->
      events_get k (update_event st (Some "uuid-0") [("timing", JInt 5)]).(c_current) =
      events_get k st.(c_current)) /\
   (update_event st (Some "uuid-0") [("timing", JInt 5)]).(c_log) = st.(c_log)).
Proof.
  split; [reflexivity|].
  apply X8_update_event_frame; reflexivity.
Defined.

(** X9: an enabled [log_event] appends exactly one record and leaves the
    in-flight map alone; the record keeps a [timestamp] the event already
    had, gets the current time otherwise, and agrees with the event on every
    field other than [query] and [timestamp]. *)
Theorem X9_log_event_record (st : collector) (event : dict) :
  st.(c_enabled) = true ->
  exists rec,
    (log_event st event).(c_log) = st.(c_log) ++ [rec] /\
    (log_event st event).(c_current) = st.(c_current) /\
    dict_get "timestamp" rec =
      match dict_get "timestamp" event with
      | Some t => Some t | None => Some (JStr st.(c_clock)) end /\
    (forall k, k <> "query" -> k <> "timestamp" -> dict_get k rec = dict_get k event).
Proof.
  intros He. unfold log_event. rewrite He. simpl.
  eexists. split; [reflexivity|]. split; [reflexivity|].
  rewrite redact_query_get_other by discriminate. split.
  - unfold dict_has. destruct (dict_get "timestamp" event) eqn:Ht; [exact Ht|].
    apply dict_get_set_eq.
  - intros k Hq Ht. rewrite redact_query_get_other by exact Hq.
    destruct (dict_has "timestamp" event); [reflexivity|].
    apply dict_get_set_neq. exact Ht.
Qed.

Lemma X9_log_event_record_witness :
  exists rec,
    (log_event collector_on [("event_type", JStr "feedback")]).(c_log) = [] ++ [rec] /\
    (log_event collector_on [("event_type", JStr "feedback")]).(c_current) = [] /\
    dict_get "timestamp" rec = Some (JStr clock0) /\
    (forall k, k <> "query" -> k <> "timestamp" ->
       dict_get k rec = dict_get k [("event_type", JStr "feedback")]).
Proof.
  exact (X9_log_event_record collector_on [("event_type", JStr "feedback")] eq_refl).
Defined.

(** X10: in the event stored by an enabled [start_event], every key of the
    context other than [query] keeps the context's value, even one of the
    reserved keys [event_id], [timestamp] or [event_type] ([**context]
    comes last in the dict literal); keys the context lacks come from the
    reserved fields. *)
Theorem X10_start_event_context_wins (st : collector) (ty : string) (ctx : dict) (k : string) :
  st.(c_enabled) = true -> NoDup (map fst ctx) -> k <> "query" ->
  snd (start_event st ty ctx) = Some (uuid4_of st.(c_next)) /\
  exists ev,
    events_get (uuid4_of st.(c_next)) (fst (start_event st ty ctx)).(c_current) = Some ev /\
    dict_get k ev =
      match dict_get k ctx with
      | Some v => Some v
      | None => dict_get k [("event_id", JStr (uuid4_of st.(c_next)));
                            ("timestamp", JStr st.(c_clock)); ("event_type", JStr ty)]
      end.
Proof.
  intros He Hnd Hq. unfold start_event. rewrite He. simpl.
  split; [reflexivity|].
  eexists. split; [apply events_get_set_eq|].
  rewrite dict_update_get by (rewrite redact_query_keys; exact Hnd).
  rewrite redact_query_get_other by exact Hq. reflexivity.
Qed.

Lemma X10_start_event_context_wins_witness :
  snd (start_event collector_on "search" [("event_type", JStr "custom")]) = Some "uuid-0" /\
  exists ev,
    events_get "uuid-0"
      (fst (start_event collector_on "search" [("event_type", JStr "custom")])).(c_current)
      = Some ev /\
    dict_get "event_type" ev = Some (JStr "custom").
Proof.
  apply (X10_start_event_context_wins collector_on "search" [("event_type", JStr "custom")]
           "event_type"); [reflexivity| |discriminate].
  constructor; [intros []|constructor].
Defined.

(** * Properties of the batched JSONL writer *)

Lemma bw_flush_split (w : batched_writer) (out : batch_outcome) (now : R) :
  (bw_flush w out now).(bw_file) ++ (bw_flush w out now).(bw_buffer) =
  w.(bw_file) ++ written_prefix w.(bw_buffer) out ++ w.(bw_buffer) /\
  (bw_flush w out now).(bw_buffer) =
    match out with BatchOk => [] | BatchFail _ => w.(bw_buffer) end /\
  (bw_flush w out now).(bw_batch_size) = w.(bw_batch_size) /\
  (bw_flush w out now).(bw_flush_interval) = w.(bw_flush_interval).
Proof.
  unfold bw_flush, written_prefix.
  destruct (bw_buffer w) as [|d buf] eqn:Hb.
  - rewrite Hb. destruct out as [|k]; [|destruct k]; simpl; rewrite ?app_nil_r; auto.
  - destruct out as [|k]; simpl; rewrite ?app_nil_r, <- ?app_assoc; auto.
Qed.

(** X11: [flush] never loses a buffered record: the file followed by the
    buffer afterwards is the file before, then the records a failed batch
    managed to write, then the whole buffer.  A successful flush empties
    the buffer; a failed one keeps all of it, so the records it had
    already written are written again by the next flush. *)
Theorem X11_flush_keeps_records (w : batched_writer) (out : batch_outcome) (now : R) :
  (bw_flush w out now).(bw_file) ++ (bw_flush w out now).(bw_buffer) =
  w.(bw_file) ++ written_prefix w.(bw_buffer) out ++ w.(bw_buffer) /\
  (bw_flush w out now).(bw_buffer) =
    match out with BatchOk => [] | BatchFail _ => w.(bw_buffer) end.
Proof.
  destruct (bw_flush_split w out now) as [H1 [H2 _]]. split; assumption.
Qed.

(** X12: [append] never loses a record, whatever the flush it triggers
    does: afterwards the file followed by the buffer is the old file, then
    possibly a prefix of the records that a failed batch wrote, then the
    old buffer and the new record.  The duplicated prefix is empty unless
    the batch failed after writing that many records. *)
Theorem X12_append_keeps_records (w : batched_writer) (data : dict) (t_check : R)
  (out : batch_outcome) (t_flush : R) :
  let w' := bw_append w data t_check out t_flush in
  exists k,
    w'.(bw_file) ++ w'.(bw_buffer) =
      w.(bw_file) ++ firstn k (w.(bw_buffer) ++ [data]) ++ w.(bw_buffer) ++ [data] /\
    (k = 0 \/ out = BatchFail k).
Proof.
  simpl. unfold bw_append.
  destruct (_ || _)%bool.
  - destruct (bw_flush_split (mk_bw (bw_file w) (bw_buffer w ++ [data]) (bw_last_flush w)
                                    (bw_batch_size w) (bw_flush_interval w)) out t_flush)
      as [H _]. simpl in H. rewrite H. unfold written_prefix.
    destruct out as [|k].
    + exists 0. auto.
    + exists k. auto.
  - exists 0. simpl. auto.
Qed.

(** X13: while every flush succeeds, a writer with [batch_size >= 1]
    never holds a full batch between calls: if the buffer is shorter than
    [batch_size] before [append], it still is afterwards. *)
Theorem X13_append_buffer_bound (w : batched_writer) (data : dict) (t_check t_flush : R) :
  (1 <= w.(bw_batch_size))%Z ->
  (Z.of_nat (length w.(bw_buffer)) < w.(bw_batch_size))%Z ->
  (Z.of_nat (length (bw_append w data t_check BatchOk t_flush).(bw_buffer)) <
   (bw_append w data t_check BatchOk t_flush).(bw_batch_size))%Z.
Proof.
  intros H1 Hlt. unfold bw_append.
  cbn [bw_buffer bw_batch_size bw_file bw_last_flush bw_flush_interval].
  destruct (Z.leb_spec (bw_batch_size w)
                       (Z.of_nat (length (bw_buffer w ++ [data])))) as [Hge|Hl]; simpl.
  - unfold bw_flush. simpl. destruct (bw_buffer w ++ [data]) eqn:Hb;
      [destruct (bw_buffer w); discriminate|]. simpl. lia.
  - destruct (interval_elapsed _ t_check).
    + unfold bw_flush. simpl. destruct (bw_buffer w ++ [data]) eqn:Hb;
        [destruct (bw_buffer w); discriminate|]. simpl. lia.
    + simpl. exact Hl.
Qed.

Lemma X13_append_buffer_bound_witness :
  let w := mk_bw [] [[("n", JInt 1)]] 0%R 2%Z 0%R in
  (1 <= w.(bw_batch_size))%Z /\ (Z.of_nat (length w.(bw_buffer)) < w.(bw_batch_size))%Z /\
  (Z.of_nat (length (bw_append w [("n", JInt 2)] 1%R BatchOk 1%R).(bw_buffer)) <
   (bw_append w [("n", JInt 2)] 1%R BatchOk 1%R).(bw_batch_size))%Z.
Proof.
  simpl. split; [lia|]. split; [lia|].
  apply (X13_append_buffer_bound (mk_bw [] [[("n", JInt 1)]] 0%R 2%Z 0%R) [("n", JInt 2)]
           1%R 1%R); simpl; lia.
Defined.

(** X14: with the time trigger disabled ([flush_interval <= 0]), an
    [append] that leaves the buffer below [batch_size] writes nothing: it
    only adds the record to the buffer. *)
Theorem X14_append_below_batch (w : batched_writer) (data : dict) (t_check : R)
  (out : batch_outcome) (t_flush : R) :
  (w.(bw_flush_interval) <= 0)%R ->
  (Z.of_nat (S (length w.(bw_buffer))) < w.(bw_batch_size))%Z ->
  bw_append w data t_check out t_flush =
  mk_bw w.(bw_file) (w.(bw_buffer) ++ [data]) w.(bw_last_flush)
        w.(bw_batch_size) w.(bw_flush_interval).
Proof.
  intros Hi Hlt. unfold bw_append, interval_elapsed. simpl.
  rewrite length_app. simpl. rewrite Nat.add_1_r.
  destruct (Z.leb_spec (bw_batch_size w) (Z.of_nat (S (length (bw_buffer w))))); [lia|].
  destruct (Rlt_dec 0%R (bw_flush_interval w)); [exfalso; lra|]. reflexivity.
Qed.

Lemma X14_append_below_batch_witness :
  let w := mk_bw [[("n", JInt 0)]] [[("n", JInt 1)]; [("n", JInt 2)]] 0%R 10%Z 0%R in
  (w.(bw_flush_interval) <= 0)%R /\ (Z.of_nat (S (length w.(bw_buffer))) < w.(bw_batch_size))%Z /\
  bw_append w [("n", JInt 3)] 7%R BatchOk 7%R =
  mk_bw [[("n", JInt 0)]] [[("n", JInt 1)]; [("n", JInt 2)]; [("n", JInt 3)]] 0%R 10%Z 0%R.
Proof.
  simpl. split; [lra|]. split; [lia|].
  apply (X14_append_below_batch
           (mk_bw [[("n", JInt 0)]] [[("n", JInt 1)]; [("n", JInt 2)]] 0%R 10%Z 0%R)
           [("n", JInt 3)] 7%R BatchOk 7%R); simpl; [lra|lia].
Defined.

(** * Properties of the redaction pipeline *)

Lemma dedup_chain (b : nat) (ds : list detection) : chain_below b (dedup b ds).
Proof.
  revert b. induction ds as [|d r IH]; intros b; simpl; [exact I|].
  destruct (Nat.leb_spec (det_end d) b) as [Hle|_]; [split; [exact Hle|apply IH]|apply IH].
Qed.

Lemma dedup_in (b : nat) (ds : list detection) (x : detection) : In x (dedup b ds) -> In x ds.
Proof.
  revert b. induction ds as [|d r IH]; intros b; simpl; [tauto|].
  destruct (Nat.leb (det_end d) b); simpl.
  - intros [<-|H]; [left; reflexivity|right; exact (IH _ H)].
  - intros H. right. exact (IH _ H).
Qed.

Lemma length_dedup (b : nat) (ds : list detection) : length (dedup b ds) <= length ds.
Proof.
  revert b. induction ds as [|d r IH]; intros b; simpl; [lia|].
  destruct (Nat.leb (det_end d) b); simpl;
    [specialize (IH (det_start d))|specialize (IH b)]; lia.
Qed.

Lemma in_insert_by_start (d x : detection) (l : list detection) :
  In x (insert_by_start d l) <-> d = x \/ In x l.
Proof.
  induction l as [|y r IH]; simpl; [tauto|].
  destruct (Nat.ltb (det_start y) (det_start d)); simpl; [tauto|].
  rewrite IH. split; intros H; decompose [or] H; auto.
Qed.

Lemma length_insert_by_start (d : detection) (l : list detection) :
  length (insert_by_start d l) = S (length l).
Proof.
  induction l as [|y r IH]; simpl; [reflexivity|].
  destruct (Nat.ltb (det_start y) (det_start d)); simpl; [reflexivity|]. rewrite IH. reflexivity.
Qed.

Lemma sort_by_start_fold (l acc : list detection) (x : detection) :
  In x (fold_left (fun acc d => insert_by_start d acc) l acc) <-> In x acc \/ In x l.
Proof.
  revert acc. induction l as [|d r IH]; intros acc; simpl; [tauto|].
  rewrite IH, in_insert_by_start. tauto.
Qed.

Lemma in_sort_by_start (l : list detection) (x : detection) :
  In x (sort_by_start_desc l) <-> In x l.
Proof. unfold sort_by_start_desc. rewrite sort_by_start_fold. simpl. tauto. Qed.

Lemma length_sort_by_start (l : list detection) : length (sort_by_start_desc l) = length l.
Proof.
  unfold sort_by_start_desc.
  assert (H : forall acc, length (fold_left (fun acc d => insert_by_start d acc) l acc) =
                          length acc + length l).
  { induction l as [|d r IH]; intros acc; simpl; [lia|].
    rewrite IH, length_insert_by_start. simpl. lia. }
  rewrite H. reflexivity.
Qed.

Lemma kept_in (regex entropy : list detection) (text : list ascii) (x : detection) :
  In x (kept_detections regex entropy text) -> In x regex \/ In x entropy.
Proof.
  unfold kept_detections, merge_detections. intros H.
  apply dedup_in, in_sort_by_start, in_app_or in H.
  destruct H as [H|H]; [left; exact H|right; apply filter_In in H; apply H].
Qed.

Lemma length_kept (regex entropy : list detection) (text : list ascii) :
  length (kept_detections regex entropy text) <= length regex + length entropy.
Proof.
  unfold kept_detections, merge_detections.
  eapply Nat.le_trans; [apply length_dedup|].
  rewrite length_sort_by_start, length_app.
  pose proof (filter_length_le (fun d => negb (overlaps (regex_ranges regex) d)) entropy). lia.
Qed.

Lemma tally_fold (ds : list detection) (h m : nat) :
  fold_left tally ds (h, m) =
  (h + length (filter (fun d => String.eqb (di_confidence (det_info_of d)) "high") ds),
   m + length (filter (fun d => negb (String.eqb (di_confidence (det_info_of d)) "high")) ds)).
Proof.
  revert h m. induction ds as [|d r IH]; intros h m; simpl; [f_equal; lia|].
  unfold tally at 2. destruct (String.eqb (di_confidence (det_info_of d)) "high"); simpl;
    rewrite IH; f_equal; lia.
Qed.

Lemma filter_negb_length {A : Type} (f : A -> bool) (l : list A) :
  length (filter f l) + length (filter (fun x => negb (f x)) l) = length l.
Proof. induction l as [|x r IH]; simpl; [reflexivity|]. destruct (f x); simpl; lia. Qed.

(** X15: the counters of the report: [total_findings] is the number of
    detections kept after deduplication, [high_confidence] counts those
    whose confidence is ["high"], every other one counts as medium, so the
    two add up to the total, which never exceeds the number of regex plus
    entropy detections; [whitelisted_skips] stays 0 and [text_length] is
    the length of the input. *)
Theorem X15_redact_report_counts (dp de : list ascii -> list detection) (text : list ascii) :
  text <> [] ->
  let kept := kept_detections (dp text) (de text) text in
  let rep := snd (redact dp de text) in
  rep.(rr_total_findings) = length kept /\
  rep.(rr_high_confidence) =
    length (filter (fun d => String.eqb (di_confidence (det_info_of d)) "high") kept) /\
  rep.(rr_high_confidence) + rep.(rr_medium_confidence) = rep.(rr_total_findings) /\
  rep.(rr_total_findings) <= length (dp text) + length (de text) /\
  rep.(rr_whitelisted_skips) = 0 /\
  rep.(rr_text_length) = length text.
Proof.
  intros Hne. destruct text as [|c rest]; [exfalso; apply Hne; reflexivity|].
  simpl. remember (c :: rest) as text eqn:Ht.
  rewrite tally_fold. simpl. rewrite !length_map.
  repeat split.
  - rewrite <- (filter_negb_length (fun d => String.eqb (di_confidence (det_info_of d)) "high")
                  (kept_detections (dp text) (de text) text)). reflexivity.
  - apply length_kept.
Qed.

(** X16: the detections [redact] keeps are each an input detection, in
    decreasing order of position and pairwise disjoint: the first ends at
    or before the end of the text, and each one ends at or before the
    start of the one kept before it. *)
Theorem X16_kept_spans_disjoint (regex entropy : list detection) (text : list ascii) :
  chain_below (length text) (kept_detections regex entropy text) /\
  (forall d, In d (kept_detections regex entropy text) -> In d regex \/ In d entropy).
Proof.
  split; [apply dedup_chain|]. intros d. apply kept_in.
Qed.

(** X17: an entropy detection joins the merged list only when it shares no
    character index with any regex detection. *)
Theorem X17_entropy_avoids_regex (regex entropy : list detection) (d : detection) :
  In d (merge_detections regex entropy) ->
  In d regex \/
  (In d entropy /\
   forall r, In r regex -> forall i, det_start d <= i < det_end d ->
     ~ (det_start r <= i < det_end r)).
Proof.
  unfold merge_detections. intros H. apply in_app_or in H.
  destruct H as [H|H]; [left; exact H|right].
  apply filter_In in H. destruct H as [Hin Hno]. split; [exact Hin|].
  intros r Hr i Hi Hri.
  apply negb_true_iff in Hno. unfold overlaps in Hno.
  assert (Hx : existsb (fun i => existsb (Nat.eqb i) (regex_ranges regex))
                       (seq (det_start d) (det_end d - det_start d)) = true).
  { apply existsb_exists. exists i. split; [apply in_seq; lia|].
    apply existsb_exists. exists i. split; [|apply Nat.eqb_refl].
    unfold regex_ranges. apply in_flat_map. exists r. split; [exact Hr|apply in_seq; lia]. }
  congruence.
Qed.

Lemma X17_entropy_avoids_regex_witness :
  let reg := [(0, 4, mk_det_info "AWS" "cloud" "high" [])] in
  let ent := [(2, 6, mk_det_info "H" "entropy" "medium" []);
              (4, 8, mk_det_info "H" "entropy" "medium" [])] in
  In (4, 8, mk_det_info "H" "entropy" "medium" []) (merge_detections reg ent) /\
  (In (4, 8, mk_det_info "H" "entropy" "medium" []) reg \/
   (In (4, 8, mk_det_info "H" "entropy" "medium" []) ent /\
    forall r, In r reg -> forall i, 4 <= i < 8 -> ~ (det_start r <= i < det_end r))).
Proof.
  assert (Hin : In (4, 8, mk_det_info "H" "entropy" "medium" [])
                   (merge_detections [(0, 4, mk_det_info "AWS" "cloud" "high" [])]
                      [(2, 6, mk_det_info "H" "entropy" "medium" []);
                       (4, 8, mk_det_info "H" "entropy" "medium" [])])).
  { simpl. right. left. reflexivity. }
  split; [exact Hin|].
  exact (X17_entropy_avoids_regex _ _ _ Hin).
Defined.

Lemma X15_redact_report_counts_witness :
  wit_text2 <> [] /\
  (let kept := kept_detections (wit_patterns2 wit_text2) (wit_entropy2 wit_text2) wit_text2 in
   let rep := snd (redact wit_patterns2 wit_entropy2 wit_text2) in
   rep.(rr_total_findings) = length kept /\
   rep.(rr_high_confidence) =
     length (filter (fun d => String.eqb (di_confidence (det_info_of d)) "high") kept) /\
   rep.(rr_high_confidence) + rep.(rr_medium_confidence) = rep.(rr_total_findings) /\
   rep.(rr_total_findings) <= length (wit_patterns2 wit_text2) +
                              length (wit_entropy2 wit_text2) /\
   rep.(rr_whitelisted_skips) = 0 /\
   rep.(rr_text_length) = length wit_text2) /\
  (let rep := snd (redact wit_patterns2 wit_entropy2 wit_text2) in
   (rep.(rr_total_findings), rep.(rr_high_confidence), rep.(rr_medium_confidence)) = (3, 2, 1)).
Proof.
  assert (H : wit_text2 <> []) by discriminate.
  split; [exact H|]. split; [|vm_compute; reflexivity].
  exact (X15_redact_report_counts wit_patterns2 wit_entropy2 _ H).
Defined.

Lemma length_firstn_le {A : Type} (n : nat) (l : list A) :
  n <= length l -> length (firstn n l) = n.
Proof. intros H. rewrite length_firstn. lia. Qed.

Lemma replace_span_app (p q : list ascii) (d : detection) :
  well_formed d -> det_end d <= length p ->
  replace_span (p ++ q) d = replace_span p d ++ q.
Proof.
  unfold replace_span, well_formed. intros Hw He.
  rewrite firstn_app, skipn_app.
  replace (det_start d - length p) with 0 by lia.
  replace (det_end d - length p) with 0 by lia.
  rewrite firstn_O, skipn_O, app_nil_r, <- !app_assoc. reflexivity.
Qed.

Lemma fold_replace_app (ds : list detection) (b : nat) (p q : list ascii) :
  chain_below b ds -> Forall well_formed ds -> b <= length p ->
  fold_left replace_span ds (p ++ q) = fold_left replace_span ds p ++ q.
Proof.
  revert b p. induction ds as [|d r IH]; intros b p Hc Hw Hb; simpl; [reflexivity|].
  destruct Hc as [He Hc]. inversion Hw as [|? ? Hwd Hwr]; subst.
  rewrite replace_span_app by (exact Hwd || lia).
  apply (IH (det_start d)); [exact Hc|exact Hwr|].
  unfold replace_span. rewrite length_app, length_firstn_le; [lia|].
  unfold well_formed in Hwd. lia.
Qed.

Lemma fold_replace_splice (ds : list detection) (b : nat) (text : list ascii) :
  chain_below b ds -> Forall well_formed ds -> b <= length text ->
  fold_left replace_span ds text = splice_desc text ds.
Proof.
  revert b text. induction ds as [|d r IH]; intros b text Hc Hw Hb; simpl; [reflexivity|].
  destruct Hc as [He Hc]. inversion Hw as [|? ? Hwd Hwr]; subst. unfold well_formed in Hwd.
  unfold replace_span at 2.
  rewrite (fold_replace_app r (det_start d)); [|exact Hc|exact Hwr|rewrite length_firstn_le; lia].
  rewrite (IH (det_start d)); [reflexivity|exact Hc|exact Hwr|rewrite length_firstn_le; lia].
Qed.

(** X18: when every detection has [start <= end], the right-to-left
    replacement loop of [redact] gives the same text as splicing the
    placeholders in one pass: each kept span of the original text is
    replaced by its placeholder and the text between consecutive spans is
    kept unchanged; later replacements never shift or overwrite earlier
    ones. *)
Theorem X18_redact_splices (dp de : list ascii -> list detection) (text : list ascii) :
  text <> [] -> Forall well_formed (dp text ++ de text) ->
  fst (redact dp de text) = splice_desc text (kept_detections (dp text) (de text) text).
Proof.
  intros Hne Hw. destruct text as [|c rest]; [exfalso; apply Hne; reflexivity|].
  simpl. remember (c :: rest) as text eqn:Ht.
  apply (fold_replace_splice _ (length text)); [apply dedup_chain| |lia].
  apply Forall_forall. intros d Hd.
  rewrite Forall_forall in Hw. apply Hw, in_or_app, (kept_in _ _ _ _ Hd).
Qed.

Lemma X18_redact_splices_witness :
  wit_text2 <> [] /\ Forall well_formed (wit_patterns2 wit_text2 ++ wit_entropy2 wit_text2) /\
  fst (redact wit_patterns2 wit_entropy2 wit_text2) =
  splice_desc wit_text2 (kept_detections (wit_patterns2 wit_text2) (wit_entropy2 wit_text2)
                           wit_text2) /\
  fst (redact wit_patterns2 wit_entropy2 wit_text2) =
  list_ascii_of_string "[REDACTED:H]y=[REDACTED:key] and [REDACTED:tok].".
Proof.
  assert (H1 : wit_text2 <> []) by discriminate.
  assert (H2 : Forall well_formed (wit_patterns2 wit_text2 ++ wit_entropy2 wit_text2))
    by (repeat constructor; unfold well_formed; simpl; lia).
  split; [exact H1|]. split; [exact H2|]. split; [|vm_compute; reflexivity].
  exact (X18_redact_splices wit_patterns2 wit_entropy2 _ H1 H2).
Defined.

Lemma newline_starts_bounds (i : nat) (l : list ascii) :
  Forall (fun x => i < x) (newline_starts i l) /\ StronglySorted le (newline_starts i l).
Proof.
  revert i. induction l as [|c r IH]; intros i; simpl; [split; constructor|].
  destruct (IH (S i)) as [Hf Hs].
  assert (Hf' : Forall (fun x => i < x) (newline_starts (S i) r))
    by (eapply Forall_impl; [|exact Hf]; simpl; intros; lia).
  destruct (Ascii.eqb c "010"%char).
  - split; [constructor; [lia|exact Hf']|].
    constructor; [exact Hs|]. eapply Forall_impl; [|exact Hf]; simpl; intros; lia.
  - split; [exact Hf'|exact Hs].
Qed.

Lemma find_line_count (cs : nat) (ls : list nat) (n : nat) :
  1 <= n -> StronglySorted le ls ->
  match find_line cs n ls with Some k => k | None => n - 1 + length ls end =
  n - 1 + length (filter (fun x => Nat.leb x cs) ls).
Proof.
  revert n. induction ls as [|x r IH]; intros n Hn Hs; simpl; [reflexivity|].
  inversion Hs as [|? ? Hsr Hfr]; subst.
  destruct (Nat.ltb_spec cs x) as [Hlt|Hge].
  - destruct (Nat.leb_spec x cs) as [|_]; [lia|].
    assert (Hnil : filter (fun y => Nat.leb y cs) r = []).
    { clear -Hfr Hlt. induction r as [|y r' IHr]; simpl; [reflexivity|].
      inversion Hfr as [|? ? Hy Hr']; subst.
      destruct (Nat.leb_spec y cs); [lia|]. apply IHr. exact Hr'. }
    rewrite Hnil. simpl. lia.
  - destruct (Nat.leb_spec x cs) as [_|]; [|lia]. simpl.
    specialize (IH (S n) ltac:(lia) Hsr).
    destruct (find_line cs (S n) r); lia.
Qed.

Lemma newline_count (cs i : nat) (l : list ascii) :
  length (filter (fun x => Nat.leb x cs) (newline_starts i l)) =
  count_occ ascii_dec (firstn (cs - i) l) "010"%char.
Proof.
  revert i. induction l as [|c r IH]; intros i; simpl; [destruct (cs - i); reflexivity|].
  destruct (Nat.le_gt_cases cs i) as [Hle|Hgt].
  - replace (cs - i) with 0 by lia. simpl.
    assert (H0 : length (filter (fun x => Nat.leb x cs) (newline_starts (S i) r)) = 0).
    { rewrite IH. replace (cs - S i) with 0 by lia. reflexivity. }
    destruct (Ascii.eqb c "010"%char); cbn [filter]; [|exact H0].
    destruct (Nat.leb_spec (S i) cs); [lia|exact H0].
  - replace (cs - i) with (S (cs - S i)) by lia. simpl.
    destruct (Ascii.eqb_spec c "010"%char) as [->|Hne]; cbn [filter].
    + destruct (Nat.leb_spec (S i) cs); [|lia]. cbn [length]. rewrite IH.
      destruct (ascii_dec "010"%char "010"%char) as [_|]; [reflexivity|congruence].
    + rewrite IH. destruct (ascii_dec c "010"%char); [congruence|reflexivity].
Qed.

Lemma line_number_count (text : list ascii) (cs : nat) :
  line_number (line_starts text) cs = S (count_occ ascii_dec (firstn cs text) "010"%char).
Proof.
  destruct (newline_starts_bounds 0 text) as [Hf Hs].
  assert (Hs' : StronglySorted le (line_starts text)).
  { unfold line_starts. constructor; [exact Hs|].
    eapply Forall_impl; [|exact Hf]; simpl; intros; lia. }
  unfold line_number. pose proof (find_line_count cs (line_starts text) 1 (le_n 1) Hs') as H.
  assert (E : match find_line cs 1 (line_starts text) with Some k => k
              | None => length (line_starts text) end =
              match find_line cs 1 (line_starts text) with Some k => k
              | None => 1 - 1 + length (line_starts text) end)
    by (destruct (find_line cs 1 (line_starts text)); reflexivity).
  rewrite E, H. unfold line_starts. simpl.
  rewrite newline_count, Nat.sub_0_r. reflexivity.
Qed.

(** X19: the line number [redact] records for a finding is one plus the
    number of newlines before the finding's start in the original text:
    findings on the first line get 1, and the loop's [else] branch (a
    finding after the last newline) gives the same count. *)
Theorem X19_finding_line_number (dp de : list ascii -> list detection) (text : list ascii)
  (f : finding) :
  In f (snd (redact dp de text)).(rr_findings) ->
  f.(f_line_number) =
    Some (S (count_occ ascii_dec (firstn f.(f_char_start) text) "010"%char)).
Proof.
  destruct text as [|c rest]; simpl; [tauto|].
  intros H. apply in_map_iff in H. destruct H as [f0 [<- _]]. simpl.
  rewrite line_number_count. reflexivity.
Qed.

Lemma X19_finding_line_number_witness :
  let text := list_ascii_of_string "ab
cdef" in
  let f := mk_finding "key" "api" "high" (finding_evidence (list_ascii_of_string "cd"))
                      (Some 2) 3 5 in
  In f (snd (redact (fun t => [(3, 5, mk_det_info "key" "api" "high"
                                     (list_ascii_of_string "cd"))])
                    (fun _ => []) text)).(rr_findings) /\
  f.(f_line_number) = Some (S (count_occ ascii_dec (firstn 3 text) "010"%char)).
Proof.
  assert (Hin : In (mk_finding "key" "api" "high" (finding_evidence (list_ascii_of_string "cd"))
                               (Some 2) 3 5)
                   (snd (redact (fun t => [(3, 5, mk_det_info "key" "api" "high"
                                                (list_ascii_of_string "cd"))])
                                (fun _ => []) (list_ascii_of_string "ab
cdef"))).(rr_findings)).
  { vm_compute. left. reflexivity. }
  split; [exact Hin|].
  exact (X19_finding_line_number _ _ _ _ Hin).
Defined.

(** * Properties of entropy detection *)

Lemma freq_add_sum (c : ascii) (fr : list (ascii * nat)) :
  fold_right plus 0 (map snd (freq_add c fr)) = S (fold_right plus 0 (map snd fr)).
Proof.
  induction fr as [|[c' n] r IH]; simpl; [reflexivity|].
  destruct (Ascii.eqb c c'); simpl; [reflexivity|]. rewrite IH. lia.
Qed.

Lemma char_freq_sum_from (l : list ascii) (fr : list (ascii * nat)) :
  fold_right plus 0 (map snd (fold_left (fun fr c => freq_add c fr) l fr)) =
  fold_right plus 0 (map snd fr) + length l.
Proof.
  revert fr. induction l as [|c r IH]; intros fr; simpl; [lia|].
  rewrite IH, freq_add_sum. lia.
Qed.

Lemma in_le_sum (x : nat) (l : list nat) : In x l -> x <= fold_right plus 0 l.
Proof. induction l as [|y r IH]; simpl; [tauto|]. intros [->|H]; [lia|specialize (IH H); lia]. Qed.

Lemma freq_add_single (c : ascii) (k : nat) : freq_add c [(c, k)] = [(c, S k)].
Proof. simpl. rewrite Ascii.eqb_refl. reflexivity. Qed.

Lemma char_freq_repeat (c : ascii) (n k : nat) :
  fold_left (fun fr c => freq_add c fr) (repeat c n) [(c, k)] = [(c, k + n)].
Proof.
  revert k. induction n as [|n IH]; intros k; cbn [repeat fold_left];
    [rewrite Nat.add_0_r; reflexivity|].
  rewrite freq_add_single, IH. f_equal. f_equal. lia.
Qed.

Local Open Scope R_scope.

Lemma ln_2_pos : 0 < ln 2.
Proof. rewrite <- ln_1. apply ln_increasing; lra. Qed.

Lemma entropy_term_nonpos (p : R) : 0 < p -> p <= 1 -> p * (ln p / ln 2) <= 0.
Proof.
  intros H0 H1.
  assert (Hl : ln p <= 0).
  { destruct H1 as [Hlt| ->]; [|rewrite ln_1; lra].
    rewrite <- ln_1. left. apply ln_increasing; assumption. }
  assert (Hi : 0 < / ln 2) by (apply Rinv_0_lt_compat; apply ln_2_pos).
  assert (Hq : 0 <= p * (- ln p) * / ln 2).
  { apply Rmult_le_pos; [apply Rmult_le_pos; lra|lra]. }
  replace (p * (ln p / ln 2)) with (- (p * (- ln p) * / ln 2)) by (unfold Rdiv; ring).
  lra.
Qed.

Lemma entropy_fold_ge (len : R) (cnts : list nat) (acc : R) :
  0 < len -> Forall (fun k => INR k <= len) cnts ->
  acc <= fold_left (fun entropy count =>
                      if Nat.ltb 0 count then
                        let prob := INR count / len in
                        entropy - prob * (ln prob / ln 2)
                      else entropy) cnts acc.
Proof.
  intros Hlen. revert acc. induction cnts as [|k r IH]; intros acc Hf; simpl; [lra|].
  inversion Hf as [|? ? Hk Hr]; subst.
  destruct (Nat.ltb_spec 0 k) as [Hpos|_]; [|apply IH; exact Hr].
  eapply Rle_trans; [|apply IH; exact Hr].
  assert (Hp : 0 < INR k / len).
  { unfold Rdiv. apply Rmult_lt_0_compat; [apply lt_0_INR; exact Hpos|].
    apply Rinv_0_lt_compat. exact Hlen. }
  destruct (div_unit (INR k) len) as [_ Hp1]; [apply pos_INR|exact Hk|exact Hlen|].
  pose proof (entropy_term_nonpos _ Hp Hp1). lra.
Qed.

Lemma shannon_entropy_nonneg (text : list ascii) : 0 <= shannon_entropy text.
Proof.
  destruct text as [|a rest] eqn:Ht; [simpl; lra|].
    rewrite <- Ht. unfold shannon_entropy. rewrite Ht. rewrite <- Ht.
    apply entropy_fold_ge.
    + apply lt_0_INR. rewrite Ht. simpl. lia.
    + apply Forall_forall. intros k Hk.
      apply le_INR. eapply Nat.le_trans; [apply in_le_sum; exact Hk|].
      unfold char_freq. rewrite char_freq_sum_from. simpl. lia.
Qed.

(** X20: [_shannon_entropy] is never negative, and it is 0 for any
    non-empty string made of a single repeated character, so such a
    candidate is never flagged under a positive threshold. *)
Theorem X20_shannon_entropy_bounds (text : list ascii) (c : ascii) (n : nat) :
  0 <= shannon_entropy text /\ shannon_entropy (repeat c (S n)) = 0.
Proof.
  split; [apply shannon_entropy_nonneg|].
  - assert (Hf : char_freq (repeat c (S n)) = [(c, S n)]).
    { unfold char_freq. cbn [repeat fold_left freq_add]. rewrite char_freq_repeat. reflexivity. }
    assert (Hl : length (repeat c (S n)) = S n) by apply repeat_length.
    unfold shannon_entropy. rewrite Hf, Hl. cbn [repeat map fold_left snd].
    destruct (Nat.ltb_spec 0 (S n)) as [_|]; [|lia].
    replace (INR (S n) / INR (S n)) with 1.
    + rewrite ln_1. unfold Rdiv. ring.
    + field. apply not_0_INR. lia.
Qed.

Local Close Scope R_scope.

Lemma skipn_cons_nth (text : list ascii) (i : nat) (c : ascii) (r : list ascii) :
  skipn i text = c :: r ->
  nth_error text i = Some c /\ skipn (S i) text = r /\ i < length text.
Proof.
  intros H. split; [|split].
  - rewrite <- (Nat.add_0_r i), <- nth_error_skipn, H. reflexivity.
  - replace (S i) with (1 + i) by lia. rewrite <- skipn_skipn, H. reflexivity.
  - pose proof (length_skipn i text) as Hl. rewrite H in Hl. simpl in Hl. lia.
Qed.

Lemma candidate_spans_ok (text l : list ascii) (i rs : nat) :
  skipn i text = l -> i <= length text -> rs <= i ->
  (forall j, rs <= j < i -> char_at is_token_char true text j) ->
  (rs = 0 \/ char_at is_token_char false text (rs - 1)) ->
  forall s e, In (s, e) (candidate_spans i rs l) -> max_token_run text s e.
Proof.
  revert i rs. induction l as [|c r IH]; intros i rs Hsk Hi Hrs Htok Hleft s e Hin;
    cbn [candidate_spans] in Hin.
  - pose proof (length_skipn i text) as Hl. rewrite Hsk in Hl. simpl in Hl.
    destruct (Nat.leb_spec 16 (i - rs)); cbn [In] in Hin; [|destruct Hin].
    destruct Hin as [Heq|[]]. injection Heq as <- <-.
    repeat split; try lia; auto.
  - destruct (skipn_cons_nth text i c r Hsk) as [Hc [Hr Hlt]].
    destruct (is_token_char c) eqn:Ht.
    + apply (IH (S i) rs Hr ltac:(lia) ltac:(lia)); [|exact Hleft|exact Hin].
      intros j Hj. destruct (Nat.eq_dec j i) as [->|Hne]; [exists c; auto|]. apply Htok. lia.
    + apply in_app_or in Hin. destruct Hin as [Hin|Hin].
      * destruct (Nat.leb_spec 16 (i - rs)); cbn [In] in Hin; [|destruct Hin].
        destruct Hin as [Heq|[]]. injection Heq as <- <-.
        repeat split; try lia; auto. right. exists c. auto.
      * apply (IH (S i) (S i) Hr ltac:(lia) ltac:(lia)); [lia| |exact Hin].
        right. replace (S i - 1) with i by lia. exists c. auto.
Qed.

(** X21: every detection of [_detect_by_entropy] (when it is enabled) is a
    maximal run of [_TOKEN_CANDIDATE_RE] characters, at least 16 long, whose
    [match_text] is exactly that slice of the text; the slice is at least
    [min_length] long, is not whitelisted, has entropy at or above the
    threshold, and is reported with category ["entropy"] and confidence
    ["medium"]. *)
Theorem X21_entropy_detection_spec (cfg : entropy_config) (wl : list ascii -> bool)
  (nm : R -> string) (text : list ascii) (d : detection) :
  In d (detect_by_entropy cfg wl nm text) ->
  cfg.(ec_enabled) = true /\
  max_token_run text (det_start d) (det_end d) /\
  di_match_text (det_info_of d) = firstn (det_end d - det_start d) (skipn (det_start d) text) /\
  (cfg.(ec_min_length) <= Z.of_nat (det_end d - det_start d))%Z /\
  wl (di_match_text (det_info_of d)) = false /\
  (cfg.(ec_threshold) <= shannon_entropy (di_match_text (det_info_of d)))%R /\
  di_category (det_info_of d) = "entropy" /\ di_confidence (det_info_of d) = "medium".
Proof.
  unfold detect_by_entropy. destruct (ec_enabled cfg); simpl; [|tauto].
  intros Hin. apply in_flat_map in Hin. destruct Hin as [[s e] [Hsp Hd]].
  pose proof (candidate_spans_ok text text 0 0 eq_refl ltac:(lia) (le_n 0)
                ltac:(intros; lia) (or_introl eq_refl) s e Hsp) as Hrun.
  assert (Hlen : length (firstn (e - s) (skipn s text)) = e - s).
  { rewrite length_firstn, length_skipn. destruct Hrun as [H1 [H2 _]]. lia. }
  destruct (Z.ltb_spec (Z.of_nat (length (firstn (e - s) (skipn s text)))) (ec_min_length cfg))
    as [_|Hmin]; [destruct Hd|].
  destruct (wl (firstn (e - s) (skipn s text))) eqn:Hwl; [destruct Hd|].
  destruct (Rle_dec (ec_threshold cfg) (shannon_entropy (firstn (e - s) (skipn s text))))
    as [Hth|]; [|destruct Hd].
  destruct Hd as [<-|[]]. unfold det_start, det_end, det_info_of. simpl.
  rewrite Hlen in Hmin. split; [reflexivity|]. split; [exact Hrun|].
  repeat split; auto; lia.
Qed.

Lemma X21_entropy_detection_spec_witness :
  exists d,
    In d (detect_by_entropy wit_entropy_cfg (fun _ => false) (fun _ => "H")
                            (list_ascii_of_string " " ++ wit_token)) /\
    (wit_entropy_cfg.(ec_enabled) = true /\
     max_token_run (list_ascii_of_string " " ++ wit_token) (det_start d) (det_end d) /\
     di_match_text (det_info_of d) =
       firstn (det_end d - det_start d)
              (skipn (det_start d) (list_ascii_of_string " " ++ wit_token)) /\
     (wit_entropy_cfg.(ec_min_length) <= Z.of_nat (det_end d - det_start d))%Z /\
     (fun _ : list ascii => false) (di_match_text (det_info_of d)) = false /\
     (wit_entropy_cfg.(ec_threshold) <= shannon_entropy (di_match_text (det_info_of d)))%R /\
     di_category (det_info_of d) = "entropy" /\ di_confidence (det_info_of d) = "medium").
Proof.
  assert (Hin : In (1, 19, mk_det_info "H" "entropy" "medium" wit_token)
                   (detect_by_entropy wit_entropy_cfg (fun _ => false) (fun _ => "H")
                                      (list_ascii_of_string " " ++ wit_token))).
  { assert (Hsp : candidate_spans 0 0 (list_ascii_of_string " " ++ wit_token) = [(1, 19)])
      by reflexivity.
    assert (Hc : firstn (19 - 1) (skipn 1 (list_ascii_of_string " " ++ wit_token)) = wit_token)
      by reflexivity.
    unfold detect_by_entropy. rewrite Hsp. cbn [negb ec_enabled wit_entropy_cfg flat_map].
    rewrite Hc. rewrite app_nil_r.
    replace (Z.ltb (Z.of_nat (length wit_token)) (ec_min_length wit_entropy_cfg)) with false
      by reflexivity.
    change (ec_threshold wit_entropy_cfg) with (-1)%R.
    destruct (Rle_dec (-1)%R (shannon_entropy wit_token)) as [_|Hn];
      [left; reflexivity|].
    exfalso. apply Hn. pose proof (shannon_entropy_nonneg wit_token). lra. }
  eexists. split; [exact Hin|].
  exact (X21_entropy_detection_spec _ _ _ _ _ Hin).
Defined.

(** * Evidence truncation for other limits *)

Lemma length_py_suffix_le (k : nat) (s : list ascii) : length (py_suffix k s) <= length s.
Proof.
  unfold py_suffix. destruct (Nat.eqb k 0); [lia|]. rewrite length_skipn. lia.
Qed.

(** X22: for any limit [max_len >= 4], [_truncate_evidence] returns at
    most 13 characters, whatever the length of the match: at most 4 + 3 + 3
    for a match within the limit, 6 + 3 + 4 beyond it. *)
Theorem X22_truncate_evidence_bounded (s : list ascii) (max_len : nat) :
  4 <= max_len -> length (truncate_evidence s max_len) <= 13.
Proof.
  intros Hm. unfold truncate_evidence.
  destruct (Nat.leb_spec (length s) max_len) as [Hle|Hgt].
  - destruct (Nat.leb_spec (length s) 6) as [H6|H6].
    + rewrite length_app, length_firstn. change (length stars) with 3.
      pose proof (Nat.le_min_l 2 (length s)). lia.
    + rewrite !length_app, length_firstn, py_suffix_length.
      * change (length stars) with 3. pose proof (Nat.le_min_l 3 (length s / 4)).
        pose proof (Nat.le_min_l (Nat.min 4 (length s / 3)) (length s)).
        pose proof (Nat.le_min_l 4 (length s / 3)). lia.
      * split; [apply Nat.min_glb; [lia|apply Nat.div_le_lower_bound; lia]|].
        pose proof (Nat.le_min_r 3 (length s / 4)).
        pose proof (Nat.Div0.div_le_upper_bound (length s) 4 (length s) ltac:(lia)). lia.
  - rewrite !length_app, length_firstn, py_suffix_length.
    + change (length stars) with 3.
      pose proof (Nat.le_min_l 6 (max_len / 3)). pose proof (Nat.le_min_l 4 (max_len / 4)).
      pose proof (Nat.le_min_l (Nat.min 6 (max_len / 3)) (length s)). lia.
    + split; [apply Nat.min_glb; [lia|apply Nat.div_le_lower_bound; lia]|].
      pose proof (Nat.le_min_r 4 (max_len / 4)).
      pose proof (Nat.Div0.div_le_upper_bound max_len 4 max_len ltac:(lia)). lia.
Qed.

Lemma X22_truncate_evidence_bounded_witness :
  4 <= 10 /\
  length (truncate_evidence (list_ascii_of_string "sk-abcdefghijklmnopqrstuvwxyz") 10) <= 13.
Proof.
  split; [lia|]. apply X22_truncate_evidence_bounded. lia.
Defined.

(** X23: below a limit of 4, a match longer than the limit is not hidden:
    the suffix length [min(4, max_len // 4)] is 0 and [match_text[-0:]] is
    the whole string, so the evidence ends with the complete match. *)
Theorem X23_truncate_evidence_small_limit (s : list ascii) (max_len : nat) :
  max_len < 4 -> max_len < length s ->
  truncate_evidence s max_len = firstn (max_len / 3) s ++ stars ++ s.
Proof.
  intros H4 Hlt. unfold truncate_evidence.
  destruct (Nat.leb_spec (length s) max_len) as [|_]; [lia|].
  assert (Hq : max_len / 4 = 0) by (apply Nat.div_small; lia).
  assert (Hp : Nat.min 6 (max_len / 3) = max_len / 3).
  { apply Nat.min_r. pose proof (Nat.Div0.div_le_upper_bound max_len 3 6 ltac:(lia)). lia. }
  rewrite Hq, Hp. reflexivity.
Qed.

Lemma X23_truncate_evidence_small_limit_witness :
  3 < 4 /\ 3 < length (list_ascii_of_string "hunter2") /\
  truncate_evidence (list_ascii_of_string "hunter2") 3 =
  firstn (3 / 3) (list_ascii_of_string "hunter2") ++ stars ++ list_ascii_of_string "hunter2".
Proof.
  split; [lia|]. split; [simpl; lia|].
  apply X23_truncate_evidence_small_limit; simpl; lia.
Defined.
